(** * git-cx: rule resolution and commit message assembly

    A shallow embedding of [main.go] (the current revision, lines 1-776)
    and the properties of its prompts, completion filter, configuration
    readers and message builder. *)

From Stdlib Require Import String Ascii.
From stdpp Require Import gmap list sorting.

Open Scope N_scope.

(** ** Go strings

    A Go string is modelled by the sequence of runes that [[]rune(s)] and
    [for _, c := range s] yield; a rune is its code point. *)

Abbreviation rune := N.
Abbreviation gostring := (list N).

Definition rune_of_ascii (a : ascii) : rune := N_of_ascii a.

(** [str "…"] is the Go string literal with these (ASCII) characters. *)
Fixpoint str (s : string) : gostring :=
  match s with
  | EmptyString => []
  | String a s' => rune_of_ascii a :: str s'
  end.

(** Go's [s == ""] and [s != ""]. *)
Definition is_empty (s : gostring) : bool :=
  match s with [] => true | _ => false end.

Definition LF : gostring := [10].

(** [unicode.IsSpace]: the Latin-1 spaces, then the White_Space table. *)
Definition unicode_IsSpace (r : rune) : bool :=
  if r <=? 255 then
    (r =? 9) || (r =? 10) || (r =? 11) || (r =? 12) || (r =? 13) || (r =? 32)
    || (r =? 133) || (r =? 160)
  else
    (r =? 5760) || ((8192 <=? r) && (r <=? 8202)) || (r =? 8232) || (r =? 8233)
    || (r =? 8239) || (r =? 8287) || (r =? 12288).

Fixpoint TrimLeft (s : gostring) : gostring :=
  match s with
  | [] => []
  | r :: s' => if unicode_IsSpace r then TrimLeft s' else s
  end.

(** [strings.TrimSpace]: leading and trailing white space removed. *)
Definition TrimSpace (s : gostring) : gostring :=
  rev (TrimLeft (rev (TrimLeft s))).

(** [strings.Join(lines, "\n")]. *)
Fixpoint joinLines (lines : list gostring) : gostring :=
  match lines with
  | [] => []
  | l :: rest =>
      match rest with
      | [] => l
      | _ :: _ => l ++ LF ++ joinLines rest
      end
  end.

(** [strings.HasPrefix]. *)
Fixpoint HasPrefix (s p : gostring) : bool :=
  match p, s with
  | [], _ => true
  | _ :: _, [] => false
  | b :: p', a :: s' => (a =? b) && HasPrefix s' p'
  end.

(** ** Case mapping

    [unicode.ToUpper] handles ASCII itself and looks every other rune up in
    the Unicode case tables; the tables are the argument [CaseRanges]. *)
Section CaseMapping.
Variable CaseRanges : rune -> rune.

Definition unicode_ToUpper (r : rune) : rune :=
  if r <=? 127 then
    (if (97 <=? r) && (r <=? 122) then r - 32 else r)
  else CaseRanges r.

(** [strings.ToUpper] maps every rune of the string. *)
Definition ToUpper (s : gostring) : gostring := map unicode_ToUpper s.
End CaseMapping.

(** ** Completion engine *)
Module Completion.

(** [prompt.Suggest]. *)
Record Suggest := mkSuggest { Text : gostring; Description : gostring }.

(** The inner loop of [fuzzyMatch]: [rest] is [sChars[sIdx:]]; the loop
    runs while [sIdx < len(sChars)], and returns [found] and the new
    [sIdx]. *)
Fixpoint scanFor (rest : list rune) (c : rune) (sIdx : nat) : bool * nat :=
  match rest with
  | [] => (false, sIdx)
  | x :: rest' =>
      if x =? c then (true, S sIdx) else scanFor rest' c (S sIdx)
  end.

(** The outer loop of [fuzzyMatch] over the runes of [sub]. *)
Fixpoint fuzzyLoop (sChars : list rune) (sub : list rune) (sIdx : nat) : bool :=
  match sub with
  | [] => true
  | c :: sub' =>
      let '(found, sIdx') := scanFor (drop sIdx sChars) c sIdx in
      if negb found then false else fuzzyLoop sChars sub' sIdx'
  end.

Definition fuzzyMatch (s sub : gostring) : bool := fuzzyLoop s sub 0.

Section Filter.
Variable CaseRanges : rune -> rune.

(** The body of the [for i := range suggestions] loop. *)
Fixpoint filterLoop (suggestions : list Suggest) (sub : gostring)
    (ignoreCase : bool) (function : gostring -> gostring -> bool)
    : list Suggest :=
  match suggestions with
  | [] => []
  | sg :: rest =>
      let c := Text sg in
      let d := Description sg in
      let c := if ignoreCase then ToUpper CaseRanges c else c in
      let d := if ignoreCase then ToUpper CaseRanges d else d in
      if function c sub || function d sub
      then sg :: filterLoop rest sub ignoreCase function
      else filterLoop rest sub ignoreCase function
  end.

Definition filterSuggestions (suggestions : list Suggest) (sub : gostring)
    (ignoreCase : bool) (function : gostring -> gostring -> bool)
    : list Suggest :=
  if is_empty sub then suggestions
  else
    let sub := if ignoreCase then ToUpper CaseRanges sub else sub in
    filterLoop suggestions sub ignoreCase function.

(** Two runes are equal up to case when [unicode.ToUpper] sends them to
    the same rune. *)
Definition eq_fold (a b : rune) : Prop :=
  unicode_ToUpper CaseRanges a = unicode_ToUpper CaseRanges b.

(** [subseq_fold q s]: every rune of [q] appears in [s], in order and
    up to case, not necessarily contiguously. *)
Inductive subseq_fold : gostring -> gostring -> Prop :=
| sf_nil s : subseq_fold [] s
| sf_take a q b s : eq_fold a b -> subseq_fold q s -> subseq_fold (a :: q) (b :: s)
| sf_skip q b s : subseq_fold q s -> subseq_fold q (b :: s).

(** The query matches the key or the description of a candidate. *)
Definition fuzzyKept (query : gostring) (sg : Suggest) : Prop :=
  subseq_fold query (Text sg) \/ subseq_fold query (Description sg).
End Filter.

(** [Filtered P l l']: [l'] is [l] with exactly the elements that
    satisfy [P] kept, each at its place. *)
Inductive Filtered {A} (P : A -> Prop) : list A -> list A -> Prop :=
| Filtered_nil : Filtered P [] []
| Filtered_keep x l l' : P x -> Filtered P l l' -> Filtered P (x :: l) (x :: l')
| Filtered_drop x l l' : ~ P x -> Filtered P l l' -> Filtered P (x :: l) l'.

End Completion.

(** ** Data model ([types.go]) *)

Record CommitType := mkCommitType { Desc : gostring; Emoji : gostring }.

(** [orderedmap.OrderedMap[string, V]]: the entries in insertion order,
    one per key. *)
Definition OrderedMap (V : Type) := list (gostring * V).

Fixpoint om_Get {V} (m : OrderedMap V) (k : gostring) : option V :=
  match m with
  | [] => None
  | (k', v) :: m' => if decide (k' = k) then Some v else om_Get m' k
  end.

(** [Set]: an existing key keeps its position and takes the new value, a
    new key is appended. *)
Fixpoint om_Set {V} (m : OrderedMap V) (k : gostring) (v : V) : OrderedMap V :=
  match m with
  | [] => [(k, v)]
  | (k', v') :: m' =>
      if decide (k' = k) then (k, v) :: m' else (k', v') :: om_Set m' k v
  end.

Definition om_Keys {V} (m : OrderedMap V) : list gostring := map fst m.

Record Rule := mkRule {
  HeaderFormat : gostring;
  HeaderFormatHint : gostring;
  Types : OrderedMap CommitType;
  DenyEmptyType : bool;
  DenyAdlibType : bool;
  UseBreakingChange : bool
}.

(** [time.Time], as an instant; [t.After(u)]. *)
Abbreviation Time := Z.
Definition After (t u : Time) : bool := (u <? t)%Z.

(** [type Scopes map[string]time.Time]. *)
Abbreviation Scopes := (gmap (list N) Z).

Abbreviation error := (list N).

Definition commitTypeAsOM (desc emoji : gostring) : CommitType :=
  {| Desc := desc; Emoji := emoji |}.

Definition defaultCommitTypes (emoji : bool) : OrderedMap CommitType :=
  let iif (cond : bool) (t f : gostring) := if cond then t else f in
  let ct : OrderedMap CommitType := [] in
  let ct := om_Set ct (str "# comment1")
    (commitTypeAsOM (str "comment starts with #") []) in
  let ct := om_Set ct (str "# comment2")
    (commitTypeAsOM (str "This default definition is from https://github.com/angular/angular/blob/main/CONTRIBUTING.md#-commit-message-guidelines") []) in
  let ct := om_Set ct (str "feat")
    (commitTypeAsOM (str "A new feature") (iif emoji (str ":sparkles:") [])) in
  let ct := om_Set ct (str "fix")
    (commitTypeAsOM (str "A bug fix") (iif emoji (str ":bug:") [])) in
  let ct := om_Set ct (str "docs")
    (commitTypeAsOM (str "Documentation only changes") (iif emoji (str ":memo:") [])) in
  let ct := om_Set ct (str "refactor")
    (commitTypeAsOM (str "A code change that neither fixes a bug nor adds a feature")
       (iif emoji (str ":recycle:") [])) in
  let ct := om_Set ct (str "perf")
    (commitTypeAsOM (str "A code change that improves performance") (iif emoji (str ":zap:") [])) in
  let ct := om_Set ct (str "test")
    (commitTypeAsOM (str "Adding missing tests or correcting existing tests")
       (iif emoji (str ":test_tube:") [])) in
  let ct := om_Set ct (str "build")
    (commitTypeAsOM (str "Changes that affect the build system or external dependencies")
       (iif emoji (str ":package:") [])) in
  let ct := om_Set ct (str "ci")
    (commitTypeAsOM (str "Changes to our CI configuration files and scripts")
       (iif emoji (str ":hammer:") [])) in
  let ct := om_Set ct (str "revert")
    (commitTypeAsOM (str "Reverts a previous commit") (iif emoji (str ":rewind:") [])) in
  ct.

Definition defaultRule (emoji : bool) : Rule :=
  {| Types := defaultCommitTypes emoji;
     DenyEmptyType := false;
     DenyAdlibType := false;
     UseBreakingChange := false;
     HeaderFormat := str "{{.type}}{{.scope_with_parens}}{{.bang}}: {{.emoji_unicode}}{{.description}}";
     HeaderFormatHint := str ".type, .scope, .scope_with_parens, .bang(if BREAKING CHANGE), .emoji, .emoji_unicode, .description" |}.

(** ** Configuration files *)
Module Config.

(** What [os.Stat], [os.Open] and [io.ReadAll] find at a path. *)
Inductive FileState :=
| StatFails (err : error)
| IsDir
| OpenFails (err : error)
| ReadFails (err : error)
| Regular (content : gostring).

(** [filepath.Ext]: the suffix from the last dot of the last path element
    (separator [/]). [rpath] is the path read from its end, [acc] the
    part already passed. *)
Fixpoint ExtLoop (rpath : list rune) (acc : list rune) : gostring :=
  match rpath with
  | [] => []
  | c :: rest =>
      if c =? 47 then []
      else if c =? 46 then c :: acc
      else ExtLoop rest (c :: acc)
  end.

Definition Ext (path : gostring) : gostring := ExtLoop (rev path) [].

Section Readers.
(** [strings.EqualFold]. *)
Variable EqualFold : gostring -> gostring -> bool.

(** [in(s, choices...)]. *)
Definition in_ (s : gostring) (choices : list gostring) : bool :=
  if (length choices =? 0)%nat then false
  else existsb (fun choice => EqualFold s choice) choices.

(** The decoders: [Unmarshal content &v] fills the value it is given
    and returns an error or [None]. *)
Variable yaml_Unmarshal_Rule : gostring -> Rule -> Rule * option error.
Variable json_Unmarshal_Rule : gostring -> Rule -> Rule * option error.
Variable yaml_Unmarshal_Scopes : gostring -> Scopes -> Scopes * option error.
Variable json_Unmarshal_Scopes : gostring -> Scopes -> Scopes * option error.

Variable fs : gostring -> FileState.

(** [Rule{Types: orderedmap.New[string, CommitType]()}]. *)
Definition zeroRule : Rule :=
  {| HeaderFormat := []; HeaderFormatHint := []; Types := [];
     DenyEmptyType := false; DenyAdlibType := false;
     UseBreakingChange := false |}.

(** What a reader returns when it runs the one decoder [Unmarshal] on
    [content], starting from the value [v]. *)
Definition decodeWith {T} (Unmarshal : gostring -> T -> T * option error)
    (content : gostring) (v : T) : option T * option error :=
  match Unmarshal content v with
  | (_, Some err) => (None, Some err)
  | (v', None) => (Some v', None)
  end.

(** The result is Go's pair of a rule pointer and an error; [None] is
    [nil]. *)
Definition tryReadRuleFile (filename : gostring) : option Rule * option error :=
  match fs filename with
  | StatFails err => (None, Some err)
  | IsDir => (None, None)
  | OpenFails err => (None, Some err)
  | ReadFails err => (None, Some err)
  | Regular content =>
      let r := zeroRule in
      if in_ (Ext filename) [str ".yaml"; str ".yml"] then
        match yaml_Unmarshal_Rule content r with
        | (_, Some err) => (None, Some err)
        | (r, None) => (Some r, None)
        end
      else if in_ (Ext filename) [str ".json"] then
        match json_Unmarshal_Rule content r with
        | (_, Some err) => (None, Some err)
        | (r, None) => (Some r, None)
        end
      else
        match yaml_Unmarshal_Rule content r with
        | (r, Some _) =>
            match json_Unmarshal_Rule content r with
            | (_, Some err) => (None, Some err)
            | (r, None) => (Some r, None)
            end
        | (r, None) => (Some r, None)
        end
  end.

Definition tryReadScopesFile (filename : gostring) : option Scopes * option error :=
  match fs filename with
  | StatFails err => (None, Some err)
  | IsDir => (None, None)
  | OpenFails err => (None, Some err)
  | ReadFails err => (None, Some err)
  | Regular content =>
      let sc : Scopes := ∅ in
      if in_ (Ext filename) [str ".yaml"; str ".yml"] then
        match yaml_Unmarshal_Scopes content sc with
        | (_, Some err) => (None, Some err)
        | (sc, None) => (Some sc, None)
        end
      else if in_ (Ext filename) [str ".json"] then
        match json_Unmarshal_Scopes content sc with
        | (_, Some err) => (None, Some err)
        | (sc, None) => (Some sc, None)
        end
      else
        match yaml_Unmarshal_Scopes content sc with
        | (sc, Some _) =>
            match json_Unmarshal_Scopes content sc with
            | (_, Some err) => (None, Some err)
            | (sc, None) => (Some sc, None)
            end
        | (sc, None) => (Some sc, None)
        end
  end.

(** [git.Repository], as far as the readers use it: the root of the
    work tree ([None] when [Worktree()] fails) and the sections of the
    raw configuration ([None] when [Config()] fails). *)
Record ConfigSection := mkSection {
  Name : gostring;
  Options : list (gostring * gostring)
}.

Record Repository := mkRepository {
  Worktree : option gostring;
  RawSections : option (list ConfigSection)
}.

(** [Options.Get] of go-git: the value of a key, or the empty string. *)
Variable Options_Get : list (gostring * gostring) -> gostring -> gostring.
Variable filepath_Join : gostring -> gostring -> gostring.

Definition configSection := str "cx".
Definition configRule := str "rule".
Definition configScopeHistory := str "scopes".
Definition userConfigFolder := str "git-cx".
Definition defaultRuleFileName := str ".cx".
Definition defaultScopesFileName := str ".scope-history".

(** The loop keeps the last section named [cx]. *)
Definition getGitConfig (repos : Repository) (key : gostring) : option gostring :=
  match RawSections repos with
  | None => None
  | Some sections =>
      let ss := foldl (fun ss s =>
                         if decide (Name s = configSection) then Some s else ss)
                      None sections in
      match ss with
      | None => None
      | Some ss =>
          let ctp := Options_Get (Options ss) key in
          if negb (is_empty ctp) then Some ctp else None
      end
  end.

(** The loop of [getGitConfig] over the sections. *)
Definition lastCx (sections : list ConfigSection) : option ConfigSection :=
  foldl (fun ss s => if decide (Name s = configSection) then Some s else ss)
    None sections.

(** The search locations of [findcfg]. *)
Inductive Tier := ExactPathTier | DirTier | UserConfigDirTier | ExecutableDirTier.

Inductive Format := YAML | JSON.

(** The options given to [findcfg.New]. *)
Record Finder := mkFinder {
  fName : gostring;
  fExactPath : gostring;
  fFormats : list Format;
  fDir : gostring;
  fUserConfigDir : gostring;
  fExecutableDir : bool
}.

(** [findcfg.Found]: the path found. [FoundAt] is not a field of the
    library's struct: it records which search location gave the path,
    for the statements about the locations. *)
Record Found := mkFound { Path : gostring; FoundAt : Tier }.

Variable findcfg_Find : Finder -> option Found.
Variable findcfg_FallbackPath : Finder -> gostring.

Definition rootDirOf (repos : Repository) : gostring :=
  match Worktree repos with Some root => root | None => [] end.

Definition exactPathOf (repos : Repository) (key : gostring) : gostring :=
  let rootDir := rootDirOf repos in
  if negb (is_empty rootDir) then
    match getGitConfig repos key with
    | Some cfg => filepath_Join rootDir cfg
    | None => []
    end
  else [].

(** The finder [readRuleFile] builds with [findcfg.New]. *)
Definition ruleFinder (repos : Repository) : Finder :=
  {| fName := defaultRuleFileName; fExactPath := exactPathOf repos configRule;
     fFormats := [YAML; JSON]; fDir := rootDirOf repos;
     fUserConfigDir := userConfigFolder; fExecutableDir := true |}.

Definition readRuleFile (repos : Repository) : option Rule * gostring :=
  let finder := ruleFinder repos in
  let fallback := (Some (defaultRule false), findcfg_FallbackPath finder) in
  match findcfg_Find finder with
  | Some found =>
      match tryReadRuleFile (Path found) with
      | (r, None) => (r, Path found)
      | (_, Some _) => fallback
      end
  | None => fallback
  end.

(** The finder [readScopesFile] builds with [findcfg.New]. *)
Definition scopesFinder (repos : Repository) : Finder :=
  {| fName := defaultScopesFileName;
     fExactPath := exactPathOf repos configScopeHistory;
     fFormats := [YAML; JSON]; fDir := rootDirOf repos;
     fUserConfigDir := userConfigFolder; fExecutableDir := true |}.

Definition readScopesFile (repos : Repository) : option Scopes * gostring :=
  let exactPath := exactPathOf repos configScopeHistory in
  let finder := scopesFinder repos in
  match findcfg_Find finder with
  | Some found =>
      match tryReadScopesFile (Path found) with
      | (sc, None) => (sc, exactPath)
      | (_, Some _) => (None, findcfg_FallbackPath finder)
      end
  | None => (None, findcfg_FallbackPath finder)
  end.
End Readers.
End Config.

(** ** The message composer *)
Module Composer.
Import Config.

(** The receiver [globalCmd], as far as the composer reads it, for a
    command that has a rule: [rule] is what [c.rule] points to. A nil
    [c.rule] is the [None] of [prepare]; [Run] panics on it, where the
    first statement of [promptType] dereferences the pointer. *)
Record globalCmd := mkCmd {
  rule : Rule;
  scopesFileName : gostring;
  scopes : Scopes
}.

(** What the run prints on [os.Stderr]. *)
Inductive Diag :=
| TypeRequired
| AdlibNotAllowed
| DescriptionRequired
| TemplateError (err : error) (headerFormat : gostring)
| WriteScopesWarning (err : error).

(** A file the run creates: its path, the encoder used and the entries
    of the ordered map given to the encoder, in their order. *)
Record FileWrite := mkWrite {
  target : gostring;
  encoder : Format;
  entries : OrderedMap Time
}.

(** The world around one run: the lines the user will submit (to
    [prompt.Input] and to [ReadLine], in order), the clock, whether
    [os.Create] and [WriteString] fail on a path, and what the run has
    printed and written so far. *)
Record World := mkWorld {
  input : list gostring;
  clock : Time;
  create_fails : gostring -> bool;
  write_fails : gostring -> option error;
  stderr : list Diag;
  files : list FileWrite
}.

Definition set_input (inp : list gostring) (w : World) : World :=
  {| input := inp; clock := clock w; create_fails := create_fails w;
     write_fails := write_fails w; stderr := stderr w; files := files w |}.

Definition eprint (d : Diag) (w : World) : World :=
  {| input := input w; clock := clock w; create_fails := create_fails w;
     write_fails := write_fails w; stderr := stderr w ++ [d]; files := files w |}.

Definition fwrite (f : FileWrite) (w : World) : World :=
  {| input := input w; clock := clock w; create_fails := create_fails w;
     write_fails := write_fails w; stderr := stderr w; files := files w ++ [f] |}.

(** A computation ends with a value, waits for a line that never comes,
    or panics. *)
Inductive Outcome (A : Type) :=
| Done (a : A) (w : World)
| Blocked
| Panic.
Arguments Done {A} a w.
Arguments Blocked {A}.
Arguments Panic {A}.

Definition M (A : Type) : Type := World -> Outcome A.

Definition ret {A} (a : A) : M A := fun w => Done a w.

Definition bind {A B} (m : M A) (k : A -> M B) : M B :=
  fun w => match m w with
           | Done a w' => k a w'
           | Blocked => Blocked
           | Panic => Panic
           end.

Notation "x <- m ;; k" := (bind m (fun x => k))
  (at level 100, m at next level, right associativity).

(** [prompt.Input]: the next line the user submits. *)
Definition prompt_Input : M gostring :=
  fun w => match input w with
           | [] => Blocked
           | line :: rest => Done line (set_input rest w)
           end.

Definition Fprintln_Stderr (d : Diag) : M unit := fun w => Done tt (eprint d w).

Section Prompts.
(** [emoji.Emojize] of kyokomi/emoji. *)
Variable Emojize : gostring -> gostring.

Definition emojiOf (c : globalCmd) (typ : gostring) (emojize : bool) : gostring :=
  match om_Get (Types (rule c)) typ with
  | Some ct =>
      let e := Emoji ct in
      if emojize then TrimSpace (Emojize e) else e
  | None => []
  end.

(** The suggestions [promptType] offers: the [items] slice. *)
Fixpoint typeItemsLoop (c : globalCmd) (keys : list gostring)
    : list Completion.Suggest :=
  match keys with
  | [] => []
  | k :: keys' =>
      if HasPrefix k (str "#") then typeItemsLoop c keys'
      else
        match om_Get (Types (rule c)) k with
        | None => typeItemsLoop c keys'
        | Some typ =>
            if is_empty (Desc typ) then typeItemsLoop c keys'
            else
              {| Completion.Text := k;
                 Completion.Description := emojiOf c k true ++ str " " ++ Desc typ |}
              :: typeItemsLoop c keys'
        end
  end.

Definition typeItems (c : globalCmd) : list Completion.Suggest :=
  typeItemsLoop c (om_Keys (Types (rule c))).

(** The loop [for typ == ""] of [promptType]; [inp] is the input of
    [w]. *)
Fixpoint typeLoop (c : globalCmd) (inp : list gostring) (w : World)
    : Outcome gostring :=
  match inp with
  | [] => Blocked
  | line :: inp' =>
      let w := set_input inp' w in
      let typ := line in
      let w := if is_empty typ && DenyEmptyType (rule c)
               then eprint TypeRequired w else w in
      let '(typ, w) :=
        if negb (is_empty typ) && DenyAdlibType (rule c) then
          match om_Get (Types (rule c)) typ with
          | Some _ => (typ, w)
          | None => ([], eprint AdlibNotAllowed w)
          end
        else (typ, w) in
      if is_empty typ then typeLoop c inp' w else Done typ w
  end.

Definition promptType (c : globalCmd) : M gostring :=
  fun w => typeLoop c (input w) w.

(** The two checks of the loop of [promptType], as one test: the line is
    not empty and, when ad-lib types are denied, it is a key of the
    registry. *)
Definition validType (c : globalCmd) (line : gostring) : bool :=
  negb (is_empty line)
  && (negb (DenyAdlibType (rule c))
      || match om_Get (Types (rule c)) line with Some _ => true | None => false end).

(** What the loop prints for a line it does not take. *)
Definition rejectionDiag (c : globalCmd) (line : gostring) : list Diag :=
  if is_empty line then (if DenyEmptyType (rule c) then [TypeRequired] else [])
  else [AdlibNotAllowed].

Definition promptScope (c : globalCmd) : M gostring := prompt_Input.

Definition promptDesc (c : globalCmd) : M gostring :=
  desc <- prompt_Input ;;
  let desc := TrimSpace desc in
  if is_empty desc
  then (_ <- Fprintln_Stderr DescriptionRequired ;; ret desc)
  else ret desc.

(** The last two statements of the loop body of [promptBody]. *)
Definition appendLine (body line : gostring) : gostring :=
  let body := if negb (is_empty body) then body ++ LF else body in
  body ++ line.

(** The loop of [promptBody]: [inp] holds the lines [ReadLine] will
    return, then it fails; the result is the body and the lines left
    unread. *)
Fixpoint bodyLoop (inp : list gostring) (prevEmpty : bool) (body : gostring)
    : gostring * list gostring :=
  match inp with
  | [] => (body, [])
  | linebyte :: inp' =>
      let line := TrimSpace linebyte in
      if is_empty line then
        if prevEmpty then (body, inp')
        else bodyLoop inp' true (appendLine body line)
      else bodyLoop inp' false (appendLine body line)
  end.

Definition promptBody (c : globalCmd) : M gostring :=
  fun w => let '(body, rest) := bodyLoop (input w) false [] in
           Done body (set_input rest w).

Definition promptBreakingChange (c : globalCmd) : M gostring :=
  if UseBreakingChange (rule c) then
    breakingChange <- prompt_Input ;;
    ret (TrimSpace breakingChange)
  else ret [].
End Prompts.

(** The data given to the template: the map literal of
    [buildupCommitMessage], one field per key. *)
Record Fields := mkFields {
  f_type : gostring;
  f_scope : gostring;
  f_scope_with_parens : gostring;
  f_bang : gostring;
  f_emoji : gostring;
  f_emoji_unicode : gostring;
  f_description : gostring
}.

(** The local struct [tmpscope] with its fields [scope] and [ts]. *)
Record tmpscope := mkTmp { s_scope : gostring; s_ts : Time }.

(** The pair [outscope.Set(s.scope, s.ts)] stores. *)
Definition entryOf (s : tmpscope) : gostring * Time := (s_scope s, s_ts s).

(** What [sort.Slice] asks of [less]: a strict weak ordering. *)
Record StrictWeak {A} (less : A -> A -> bool) : Prop := mkStrictWeak {
  sw_irrefl : forall a, less a a = false;
  sw_trans : forall a b c, less a b = true -> less b c = true -> less a c = true;
  sw_neg_trans : forall a b c, less a b = false -> less b c = false -> less a c = false
}.

(** What [sort.Slice] leaves: no element is [less] than one before it. *)
Definition SortedBy {A} (less : A -> A -> bool) (l : list A) : Prop :=
  StronglySorted (fun a b => less b a = false) l.

(** Time stamps from the latest to the earliest. *)
Definition Descending (l : OrderedMap Time) : Prop :=
  StronglySorted (fun a b => (snd b <= snd a)%Z) l.

Section Buildup.
Variable Emojize : gostring -> gostring.
Variable EqualFold : gostring -> gostring -> bool.

(** [text/template]: [Parse] gives a template or an error; [Execute]
    gives what it wrote to the buffer and an error or [None]. *)
Variable Template : Type.
Variable template_Parse : gostring -> Template + error.
Variable template_Execute : Template -> Fields -> gostring * option error.

(** [for k, v := range c.scopes]: the entries in the order the runtime
    yields them. *)
Variable range_Scopes : Scopes -> list (gostring * Time).

(** [sort.Slice]. *)
Variable sort_Slice : list tmpscope -> (tmpscope -> tmpscope -> bool) -> list tmpscope.

(** [template.Must]. *)
Definition template_Must (r : Template + error) : M Template :=
  match r with
  | inl t => ret t
  | inr _ => fun _ => Panic
  end.

Definition time_Now : M Time := fun w => Done (clock w) w.

(** [os.Create] followed by [WriteString] and [Close]. *)
Definition writeScopes (fileName : gostring) (enc : Format)
    (outscope : OrderedMap Time) : M unit :=
  fun w =>
    if create_fails w fileName then Done tt w
    else
      let w := fwrite {| target := fileName; encoder := enc; entries := outscope |} w in
      match write_fails w fileName with
      | Some err => Done tt (eprint (WriteScopesWarning err) w)
      | None => Done tt w
      end.

(** The block [// write back scope history]. *)
Definition writeBackScopes (c : globalCmd) (scope : gostring) : M unit :=
  if negb (is_empty scope) && negb (is_empty (scopesFileName c)) then
    now <- time_Now ;;
    let scopes := <[scope := now]> (scopes c) in
    let sclist := map (fun kv => {| s_scope := fst kv; s_ts := snd kv |})
                      (range_Scopes scopes) in
    let sclist := sort_Slice sclist (fun si sj => After (s_ts si) (s_ts sj)) in
    let outscope := foldl (fun om s => om_Set om (s_scope s) (s_ts s)) [] sclist in
    let enc := if in_ EqualFold (Ext (scopesFileName c)) [str ".json"]
               then JSON else YAML in
    writeScopes (scopesFileName c) enc outscope
  else ret tt.

(** The map literal given to [Execute]. *)
Definition headerData (c : globalCmd) (typ scope desc breakingChange : gostring)
    : Fields :=
  {| f_type := typ; f_scope := scope;
     f_scope_with_parens :=
       if negb (is_empty scope) then str "(" ++ scope ++ str ")" else [];
     f_bang := if negb (is_empty breakingChange) then str "!" else [];
     f_emoji := emojiOf Emojize c typ false;
     f_emoji_unicode := emojiOf Emojize c typ true;
     f_description := desc |}.

(** The header a parsed template gives: what [Execute] wrote, followed,
    when it failed, by the five strings of the fallback. *)
Definition renderedHeader (t : Template) (data : Fields) : gostring :=
  match template_Execute t data with
  | (buf, None) => buf
  | (buf, Some _) =>
      buf ++ f_type data ++ f_scope_with_parens data ++ f_bang data ++ str ": "
      ++ f_description data
  end.

(** The block that builds [header]. *)
Definition buildHeader (c : globalCmd) (typ scope desc breakingChange : gostring)
    : M gostring :=
  let emoji := emojiOf Emojize c typ false in
  let emojiUnicode := emojiOf Emojize c typ true in
  let scopeWithParens :=
    if negb (is_empty scope) then str "(" ++ scope ++ str ")" else [] in
  let bang := if negb (is_empty breakingChange) then str "!" else [] in
  templ <- template_Must (template_Parse (HeaderFormat (rule c))) ;;
  let '(buf, err) :=
    template_Execute templ
      {| f_type := typ; f_scope := scope;
         f_scope_with_parens := scopeWithParens; f_bang := bang;
         f_emoji := emoji; f_emoji_unicode := emojiUnicode;
         f_description := desc |} in
  match err with
  | Some err =>
      _ <- Fprintln_Stderr (TemplateError err (HeaderFormat (rule c))) ;;
      let buf := buf ++ typ in
      let buf := buf ++ scopeWithParens in
      let buf := buf ++ bang in
      let buf := buf ++ str ": " in
      let buf := buf ++ desc in
      ret buf
  | None => ret buf
  end.

Definition buildupCommitMessage (c : globalCmd) : M gostring :=
  typ <- promptType c ;;
  scope <- promptScope c ;;
  desc <- promptDesc c ;;
  body <- promptBody c ;;
  breakingChange <- promptBreakingChange c ;;
  _ <- writeBackScopes c scope ;;
  header <- buildHeader c typ scope desc breakingChange ;;
  let msg := header in
  let msg := if negb (is_empty body) then msg ++ (LF ++ LF) ++ body else msg in
  let msg := if negb (is_empty breakingChange)
             then msg ++ (LF ++ str "BREAKING CHANGE: ") ++ breakingChange
             else msg in
  ret msg.
End Buildup.

Section Prepare.
Variable EqualFold : gostring -> gostring -> bool.
Variable yaml_Unmarshal_Rule : gostring -> Rule -> Rule * option error.
Variable json_Unmarshal_Rule : gostring -> Rule -> Rule * option error.
Variable yaml_Unmarshal_Scopes : gostring -> Scopes -> Scopes * option error.
Variable json_Unmarshal_Scopes : gostring -> Scopes -> Scopes * option error.
Variable fs : gostring -> FileState.
Variable Options_Get : list (gostring * gostring) -> gostring -> gostring.
Variable filepath_Join : gostring -> gostring -> gostring.
Variable findcfg_Find : Finder -> option Found.
Variable findcfg_FallbackPath : Finder -> gostring.

(** [prepare]: the rule and the scope history of the run. The result
    is [None] when [readRuleFile] hands back a nil rule, which the
    prompts then dereference. *)
Definition prepare (repos : Repository) : option globalCmd :=
  let '(r, _) :=
    readRuleFile EqualFold yaml_Unmarshal_Rule json_Unmarshal_Rule fs
      Options_Get filepath_Join findcfg_Find findcfg_FallbackPath repos in
  let '(sc, fileName) :=
    readScopesFile EqualFold yaml_Unmarshal_Scopes json_Unmarshal_Scopes fs
      Options_Get filepath_Join findcfg_Find findcfg_FallbackPath repos in
  let sc := match sc with Some sc => sc | None => ∅ end in
  match r with
  | Some r => Some {| rule := r; scopesFileName := fileName; scopes := sc |}
  | None => None
  end.
End Prepare.
End Composer.

(** ** The command [git cx] *)
Module Runner.
Import Composer.

(** [git.StatusCode] and [git.FileStatus] of go-git, and [git.Status],
    a map from path to file status. *)
Inductive StatusCode :=
| Unmodified | Untracked | Modified | Added | Deleted | Renamed | Copied
| UpdatedButUnmerged.

#[export] Instance StatusCode_eq_dec : EqDecision StatusCode.
Proof. solve_decision. Defined.

Record FileStatus := mkFileStatus { Staging : StatusCode; Worktree : StatusCode }.

Abbreviation Status := (gmap (list N) FileStatus).

(** The flags of [globalCmd] that [Run] reads. *)
Record Flags := mkFlags { All : bool; Debug : bool }.

(** What [Run] itself does to the outside, in order: lines on
    [os.Stderr] and [os.Stdout], [wt.Add], the temporary file and
    [git commit -F]. What the prompts print and write is in the
    [World]. *)
Inductive Event :=
| StderrWd (wd : gostring)
| StderrNoChanges
| Add (f : gostring)
| Stdout (line : gostring)
| TempCreated (name : gostring)
| TempWritten (name : gostring) (msg : gostring)
| GitCommit (name : gostring)
| TempRemoved (name : gostring).

(** How [Run] ends: it returns an error or nil, leaving the world and
    the tree in some state, waits for a line that never comes, or
    panics. *)
Inductive Result (Tree : Type) :=
| Returned (err : option error) (w : World) (tr : Tree)
| Waiting
| Panicked.
Arguments Returned {Tree} err w tr.
Arguments Waiting {Tree}.
Arguments Panicked {Tree}.

(** The files created between the world [w] and a later world [w']. *)
Definition created (w w' : World) : list FileWrite :=
  drop (length (files w)) (files w').

(** The cases of [switch s.Worktree] that call [wt.Add]. *)
Definition addCase (s : StatusCode) : bool :=
  match s with
  | Modified | Added | Deleted | Renamed | Copied | UpdatedButUnmerged => true
  | Unmodified | Untracked => false
  end.

Section Run.
Variable Emojize : gostring -> gostring.
Variable EqualFold : gostring -> gostring -> bool.
Variable Template : Type.
Variable template_Parse : gostring -> Template + error.
Variable template_Execute : Template -> Fields -> gostring * option error.
Variable range_Scopes : Scopes -> list (gostring * Time).
Variable sort_Slice : list tmpscope -> (tmpscope -> tmpscope -> bool) -> list tmpscope.
Variable yaml_Unmarshal_Rule : gostring -> Rule -> Rule * option error.
Variable json_Unmarshal_Rule : gostring -> Rule -> Rule * option error.
Variable yaml_Unmarshal_Scopes : gostring -> Scopes -> Scopes * option error.
Variable json_Unmarshal_Scopes : gostring -> Scopes -> Scopes * option error.
Variable fs : gostring -> Config.FileState.
Variable Options_Get : list (gostring * gostring) -> gostring -> gostring.
Variable filepath_Join : gostring -> gostring -> gostring.
Variable findcfg_Find : Config.Finder -> option Config.Found.
Variable findcfg_FallbackPath : Config.Finder -> gostring.

(** [git.PlainOpenWithOptions] on the current directory, the error of
    [Worktree()] on a bare repository, and [os.Getwd]. *)
Variable git_PlainOpenWithOptions : Config.Repository + error.
Variable ErrIsBareRepository : error.
Variable os_Getwd : gostring + error.

(** The work tree and index of go-git: [wt.Status] reads them, [wt.Add]
    changes them, and so does a file the prompts create (the scope
    history, when its path lies in the work tree): [os_Written] is the
    tree once the given files are on disk. A range over a [git.Status]
    visits its entries in an order the language does not fix. *)
Variable Tree : Type.
Variable wt_Status : Tree -> Status + error.
Variable wt_Add : gostring -> Tree -> Tree * option error.
Variable os_Written : list FileWrite -> Tree -> Tree.
Variable range_Status : Status -> list (gostring * FileStatus).

(** [fmt.Errorf] with the format of the staging loop. *)
Variable Errorf_adding : StatusCode -> gostring -> error -> error.

(** [os.CreateTemp] (the name of the file), [WriteString] on it and
    [git commit -F] run on the tree with the file's content: the tree
    after it and its error. *)
Variable os_CreateTemp : gostring + error.
Variable WriteString_err : option error.
Variable exec_git_commit : Tree -> gostring -> Tree * option error.

(** The loop [for f, s := range st] that stages the changed files. *)
Fixpoint addLoop (st : list (gostring * FileStatus)) (tr : Tree) (log : list Event)
    : option error * Tree * list Event :=
  match st with
  | [] => (None, tr, log)
  | (f, s) :: st' =>
      if addCase (Worktree s) then
        match wt_Add f tr with
        | (tr, Some err) =>
            (Some (Errorf_adding (Worktree s) f err), tr, log ++ [Add f])
        | (tr, None) => addLoop st' tr (log ++ [Add f])
        end
      else addLoop st' tr log
  end.

(** The loop [for _, s := range st] that computes [staged]. *)
Definition stagedLoop (st : list (gostring * FileStatus)) : bool :=
  foldl (fun staged fs =>
           staged || (negb (bool_decide (Staging (snd fs) = Unmodified))
                      && negb (bool_decide (Staging (snd fs) = Untracked))))
        false st.

(** [Run]. A nil [c.rule] after [prepare] makes the first statement of
    [promptType] panic, before anything is read. The files the prompts
    create are on disk when [buildupCommitMessage] returns, whatever
    [Debug] says. *)
Definition Run (c : Flags) (tr : Tree) (w : World) : Result Tree * list Event :=
  match git_PlainOpenWithOptions with
  | inr err => (Returned (Some err) w tr, [])
  | inl repos =>
  match Config.Worktree repos with
  | None => (Returned (Some ErrIsBareRepository) w tr, [])
  | Some _ =>
  match os_Getwd with
  | inr err => (Returned (Some err) w tr, [])
  | inl wd =>
  let log := if Debug c then [StderrWd wd] else [] in
  let '(err, tr, log) :=
    if negb (Debug c) && All c then
      match wt_Status tr with
      | inr err => (Some err, tr, log)
      | inl st => addLoop (range_Status st) tr log
      end
    else (None, tr, log) in
  match err with
  | Some err => (Returned (Some err) w tr, log)
  | None =>
  match wt_Status tr with
  | inr err => (Returned (Some err) w tr, log)
  | inl st =>
  let staged := stagedLoop (range_Status st) in
  let log := if negb staged then log ++ [StderrNoChanges] else log in
  if negb staged && negb (Debug c) then (Returned None w tr, log)
  else
  match prepare EqualFold yaml_Unmarshal_Rule json_Unmarshal_Rule
          yaml_Unmarshal_Scopes json_Unmarshal_Scopes fs Options_Get
          filepath_Join findcfg_Find findcfg_FallbackPath repos with
  | None => (Panicked, log)
  | Some cmd =>
  match buildupCommitMessage Emojize EqualFold Template template_Parse
          template_Execute range_Scopes sort_Slice cmd w with
  | Blocked => (Waiting, log)
  | Panic => (Panicked, log)
  | Done msg w' =>
  let tr := os_Written (created w w') tr in
  if Debug c then
    (Returned None w' tr, log ++ [Stdout (str "----------"); Stdout msg])
  else
  match os_CreateTemp with
  | inr err => (Returned (Some err) w' tr, log)
  | inl name =>
  let log := log ++ [TempCreated name] in
  match WriteString_err with
  | Some err => (Returned (Some err) w' tr, log)
  | None =>
  let log := log ++ [TempWritten name msg] in
  let '(tr, err) := exec_git_commit tr msg in
  let log := log ++ [GitCommit name; TempRemoved name] in
  (Returned err w' tr, log)
  end end end end end end end end end.
End Run.
End Runner.

(** ** Instances of the library interfaces

    Small, executable stand-ins for the libraries the program calls; the
    examples run the program on them. *)
Module Instances.
Import Composer.

(** Case tables that leave every rune beyond ASCII alone. *)
Definition asciiCaseRanges (r : rune) : rune := r.

Definition asciiEqualFold (s t : gostring) : bool :=
  bool_decide (ToUpper asciiCaseRanges s = ToUpper asciiCaseRanges t).

(** An emoji table with two short codes. *)
Definition smallEmojize (s : gostring) : gostring :=
  if decide (s = str ":sparkles:") then [10024]
  else if decide (s = str ":bug:") then [128027]
  else s.

(** A template is literal runes and actions [{{.a.b...}}]. *)
Inductive Piece := Lit (r : rune) | Action (chain : gostring).

(** [acc] is [None] outside an action and the runes of the action read
    so far, last first, inside one. *)
Fixpoint flatParseLoop (s : gostring) (acc : option gostring)
    : option (list Piece) :=
  match s, acc with
  | [], None => Some []
  | [], Some _ => None
  | c :: s', None =>
      match s' with
      | c' :: s'' =>
          if (c =? 123) && (c' =? 123) then flatParseLoop s'' (Some [])
          else (fun t => Lit c :: t) <$> flatParseLoop s' None
      | [] => Some [Lit c]
      end
  | c :: s', Some a =>
      match s' with
      | c' :: s'' =>
          if (c =? 125) && (c' =? 125) then
            match rev a with
            | 46 :: chain => (fun t => Action chain :: t) <$> flatParseLoop s'' None
            | _ => None
            end
          else flatParseLoop s' (Some (c :: a))
      | [] => None
      end
  end.

Definition flatParse (s : gostring) : list Piece + error :=
  match flatParseLoop s None with
  | Some t => inl t
  | None => inr (str "template: unclosed or malformed action")
  end.

Definition flatField (name : gostring) (f : Fields) : gostring :=
  if decide (name = str "type") then f_type f
  else if decide (name = str "scope") then f_scope f
  else if decide (name = str "scope_with_parens") then f_scope_with_parens f
  else if decide (name = str "bang") then f_bang f
  else if decide (name = str "emoji") then f_emoji f
  else if decide (name = str "emoji_unicode") then f_emoji_unicode f
  else if decide (name = str "description") then f_description f
  else str "<no value>".

(** An action that selects a field of a string ([{{.type.x}}]) stops the
    execution with an error; what was written before it stays in the
    buffer. *)
Fixpoint flatExecute (t : list Piece) (f : Fields) : gostring * option error :=
  match t with
  | [] => ([], None)
  | Lit r :: t' => let '(out, err) := flatExecute t' f in (r :: out, err)
  | Action chain :: t' =>
      if existsb (N.eqb 46) chain
      then ([], Some (str "template: can't evaluate field in type string"))
      else let '(out, err) := flatExecute t' f in (flatField chain f ++ out, err)
  end.

Definition byLess {A} (less : A -> A -> bool) (a b : A) : Prop := less b a = false.

#[local] Instance byLess_dec {A} (less : A -> A -> bool) a b : Decision (byLess less a b).
Proof. unfold byLess. apply _. Defined.

(** A stable sort standing in for [sort.Slice]. *)
Definition mergeSlice (l : list tmpscope) (less : tmpscope -> tmpscope -> bool)
    : list tmpscope :=
  merge_sort (byLess less) l.

(** Decoders that tell the two formats apart by the first rune: a
    content that starts with a brace is JSON, any other is YAML. A rule
    takes the content as its header format, a scope history has the
    content as its one scope. *)
Definition toyYamlRule (content : gostring) (r : Rule) : Rule * option error :=
  if HasPrefix content (str "{") then (r, Some (str "yaml: did not find expected key"))
  else ({| HeaderFormat := content; HeaderFormatHint := HeaderFormatHint r;
           Types := Types r; DenyEmptyType := DenyEmptyType r;
           DenyAdlibType := DenyAdlibType r;
           UseBreakingChange := UseBreakingChange r |}, None).

Definition toyJsonRule (content : gostring) (r : Rule) : Rule * option error :=
  if HasPrefix content (str "{")
  then ({| HeaderFormat := content; HeaderFormatHint := HeaderFormatHint r;
           Types := Types r; DenyEmptyType := DenyEmptyType r;
           DenyAdlibType := DenyAdlibType r;
           UseBreakingChange := UseBreakingChange r |}, None)
  else (r, Some (str "invalid character looking for beginning of value")).

Definition toyYamlScopes (content : gostring) (sc : Scopes) : Scopes * option error :=
  if HasPrefix content (str "{") then (sc, Some (str "yaml: did not find expected key"))
  else (<[content := 0%Z]> sc, None).

Definition toyJsonScopes (content : gostring) (sc : Scopes) : Scopes * option error :=
  if HasPrefix content (str "{") then (<[content := 0%Z]> sc, None)
  else (sc, Some (str "invalid character looking for beginning of value")).

(** [Options.Get] that returns the value of the first option with the
    key. *)
Fixpoint firstOption (opts : list (gostring * gostring)) (key : gostring) : gostring :=
  match opts with
  | [] => []
  | (k, v) :: opts' => if decide (k = key) then v else firstOption opts' key
  end.

(** [filepath.Join] of a directory and a relative name. *)
Definition slashJoin (dir name : gostring) : gostring := dir ++ str "/" ++ name.

(** The entries of a map in key order. *)
Definition keyOrder (m : Scopes) : list (gostring * Time) := map_to_list m.
End Instances.

(** ** Example inputs *)
Module Examples.
Import Config Composer.

(** A world in which every file can be created and written, nothing has
    been printed yet, the user submits [inp] and the clock shows [now]. *)
Definition quietWorld (inp : list gostring) (now : Time) : World :=
  {| input := inp; clock := now; create_fails := fun _ => false;
     write_fails := fun _ => None; stderr := []; files := [] |}.

(** The default types with ad-lib types denied. *)
Definition strictRule : Rule :=
  {| HeaderFormat := HeaderFormat (defaultRule false);
     HeaderFormatHint := HeaderFormatHint (defaultRule false);
     Types := defaultCommitTypes false;
     DenyEmptyType := true; DenyAdlibType := true; UseBreakingChange := true |}.

(** A registry whose only key is the empty string, empty and ad-lib
    types denied. *)
Definition emptyKeyRule : Rule :=
  {| HeaderFormat := HeaderFormat (defaultRule false);
     HeaderFormatHint := HeaderFormatHint (defaultRule false);
     Types := om_Set [] [] (commitTypeAsOM (str "no type") []);
     DenyEmptyType := true; DenyAdlibType := true; UseBreakingChange := false |}.
(** A repository at [/repo] whose configuration has no [cx] section. *)
Definition plainRepo : Repository :=
  {| Worktree := Some (str "/repo"); RawSections := Some [] |}.

(** A repository at [/repo] with [[cx] scopes = myscopes.yaml]. *)
Definition overrideRepo : Repository :=
  {| Worktree := Some (str "/repo");
     RawSections :=
       Some [ {| Name := str "cx";
                 Options := [(str "scopes", str "myscopes.yaml")] |} ] |}.

(** A file system in which every path is a regular file that holds
    [old]. *)
Definition oneScopeFs (path : gostring) : FileState := Regular (str "old").

(** A finder that finds the scope history at the root of the work tree. *)
Definition findAtRoot (f : Finder) : option Found :=
  Some {| Path := fDir f ++ str "/" ++ fName f ++ str ".yaml"; FoundAt := DirTier |}.

(** A finder that finds the scope history in the user's configuration
    directory. *)
Definition findAtUserDir (f : Finder) : option Found :=
  Some {| Path := str "/home/u/.config/" ++ fUserConfigDir f ++ str "/" ++ fName f
                  ++ str ".yaml";
          FoundAt := UserConfigDirTier |}.

(** The fallback path: next to the executable. *)
Definition exeFallback (f : Finder) : gostring := str "/usr/bin/" ++ fName f.

(** A command with two scopes in its history, written back to
    [scopes.yaml]. *)
Definition twoScopes : globalCmd :=
  {| rule := defaultRule true; scopesFileName := str "scopes.yaml";
     scopes := {[ str "old" := 5%Z; str "older" := 3%Z ]} |}.

(** A command whose header format is the unclosed action [{{]. *)
Definition brokenFormat : globalCmd :=
  {| rule := {| HeaderFormat := str "{{";
                HeaderFormatHint := [];
                Types := defaultCommitTypes true;
                DenyEmptyType := false; DenyAdlibType := false;
                UseBreakingChange := true |};
     scopesFileName := []; scopes := ∅ |}.

(** A command with the default rule, emoji and breaking changes on, and
    no scope history file. *)
Definition breakingCmd : globalCmd :=
  {| rule := {| HeaderFormat := HeaderFormat (defaultRule true);
                HeaderFormatHint := HeaderFormatHint (defaultRule true);
                Types := defaultCommitTypes true;
                DenyEmptyType := false; DenyAdlibType := false;
                UseBreakingChange := true |};
     scopesFileName := []; scopes := ∅ |}.
End Examples.

(** ** Example runs of the command *)
Module RunExamples.
Import Composer Runner Instances Examples.

(** A work tree that is its own status: [Status] reads it, [Add] moves
    the change of a path from the work tree to the index, a file created
    in it is untracked, and a commit leaves what was staged unmodified. *)
Definition statusOf (t : Status) : Status + error := inl t.

Definition stageFile (f : gostring) (t : Status) : Status * option error :=
  (alter (fun s => {| Staging := Worktree s; Worktree := Unmodified |}) f t, None).

Definition untracked (fws : list FileWrite) (t : Status) : Status :=
  foldl (fun t fw => <[target fw := {| Staging := Untracked; Worktree := Untracked |}]> t)
    t fws.

Definition pathOrder (st : Status) : list (gostring * FileStatus) := map_to_list st.

Definition addingError (s : StatusCode) (f : gostring) (err : error) : error :=
  str "try git gc: adding " ++ f.

Definition commitSucceeds (t : Status) (msg : gostring) : Status * option error :=
  ((fun s => if decide (Staging s = Untracked) then s
             else {| Staging := Unmodified; Worktree := Worktree s |}) <$> t,
   None).

(** [main.go] is staged. *)
Definition oneStaged : Status :=
  {[ str "main.go" := {| Staging := Modified; Worktree := Unmodified |} ]}.

(** [main.go] is modified but not staged. *)
Definition oneChanged : Status :=
  {[ str "main.go" := {| Staging := Unmodified; Worktree := Modified |} ]}.

(** [Run] in the repository at [/repo], with no rule file and no scope
    history anywhere, in the directory [/repo/sub]. *)
Definition runInRepo (c : Flags) (tr : Status) (w : World)
    : Result Status * list Event :=
  Run smallEmojize asciiEqualFold (list Piece) flatParse flatExecute keyOrder
    mergeSlice toyYamlRule toyJsonRule toyYamlScopes toyJsonScopes oneScopeFs
    firstOption slashJoin (fun _ => None) exeFallback
    (inl plainRepo) (str "worktree not available in a bare repository")
    (inl (str "/repo/sub")) Status statusOf stageFile untracked pathOrder
    addingError (inl (str "/tmp/123")) None commitSucceeds c tr w.

(** [Run] in the repository at [/repo] whose configuration names
    [myscopes.yaml] as the scope history, with a rule file and a scope
    history found at the root of the work tree. *)
Definition runWithHistory (c : Flags) (tr : Status) (w : World)
    : Result Status * list Event :=
  Run smallEmojize asciiEqualFold (list Piece) flatParse flatExecute keyOrder
    mergeSlice toyYamlRule toyJsonRule toyYamlScopes toyJsonScopes oneScopeFs
    firstOption slashJoin findAtRoot exeFallback
    (inl overrideRepo) (str "worktree not available in a bare repository")
    (inl (str "/repo/sub")) Status statusOf stageFile untracked pathOrder
    addingError (inl (str "/tmp/123")) None commitSucceeds c tr w.
End RunExamples.

(** * Properties *)

(** ** The completion engine *)
Module CompletionFacts.
Import Completion.

Lemma scanFor_found rest c i j :
  scanFor rest c i = (true, j) ->
  exists pre post,
    rest = pre ++ c :: post /\ (c ∉ pre) /\ j = (i + S (length pre))%nat.
Proof.
  revert i. induction rest as [|x rest IH]; intros i H; simpl in H; [discriminate|].
  destruct (N.eqb_spec x c) as [->|Hne].
  - inversion H; subst. exists [], rest. repeat split; [apply not_elem_of_nil | simpl; lia].
  - destruct (IH _ H) as (pre & post & -> & Hpre & ->).
    exists (x :: pre), post. repeat split.
    + intros [Heq|Hin]%elem_of_cons; [congruence | done].
    + simpl. lia.
Qed.

Lemma scanFor_missing rest c i j : scanFor rest c i = (false, j) -> c ∉ rest.
Proof.
  revert i. induction rest as [|x rest IH]; intros i H; simpl in H.
  - apply not_elem_of_nil.
  - destruct (N.eqb_spec x c) as [->|Hne]; [discriminate|].
    intros [Heq|Hin]%elem_of_cons; [congruence | by eapply IH].
Qed.

Lemma sublist_after_first (c : rune) q pre post :
  c ∉ pre -> sublist (c :: q) (pre ++ c :: post) <-> sublist q post.
Proof.
  intros Hpre. induction pre as [|x pre IH]; simpl.
  - split; intros H.
    + inversion H; subst; [done|].
      transitivity (c :: q); [by apply sublist_cons | done].
    + by constructor.
  - apply not_elem_of_cons in Hpre as [Hx Hpre]. rewrite <- (IH Hpre). split; intros H.
    + inversion H; subst; [congruence | done].
    + by constructor.
Qed.

Lemma fuzzyLoop_sublist s sub i :
  fuzzyLoop s sub i = true <-> sublist sub (drop i s).
Proof.
  revert i. induction sub as [|c sub IH]; intros i; simpl.
  - split; [intros _; apply sublist_nil_l | done].
  - destruct (scanFor (drop i s) c i) as [found j] eqn:Hscan. destruct found; simpl.
    + destruct (scanFor_found _ _ _ _ Hscan) as (pre & post & Hs & Hpre & ->).
      rewrite IH, Hs, (sublist_after_first c sub pre post Hpre).
      replace (drop (i + S (length pre)) s) with post; [done|].
      rewrite <- drop_drop, Hs. change (c :: post) with ([c] ++ post).
      rewrite app_assoc. symmetry. apply drop_app_length'.
      rewrite length_app. simpl. lia.
    + split; [discriminate|]. intros H. exfalso.
      apply (scanFor_missing _ _ _ _ Hscan).
      eapply elem_of_sublist; [|exact H]. by left.
Qed.

(** [fuzzyMatch s sub] holds exactly when the runes of [sub] occur in
    [s] in their order. *)
Lemma fuzzyMatch_sublist s sub : fuzzyMatch s sub = true <-> sublist sub s.
Proof. unfold fuzzyMatch. by rewrite fuzzyLoop_sublist, drop_0. Qed.

Section WithCase.
Variable CaseRanges : rune -> rune.

Lemma sublist_ToUpper q s :
  sublist (ToUpper CaseRanges q) (ToUpper CaseRanges s) <-> subseq_fold CaseRanges q s.
Proof.
  split.
  - revert q. induction s as [|b s IH]; intros q H.
    + destruct q; [constructor | inversion H].
    + destruct q as [|a q]; [constructor|]. simpl in H. inversion H; subst.
      * apply sf_take; [done | by apply IH].
      * apply sf_skip. by apply IH.
  - induction 1 as [s | a q b s Hab _ IH | q b s _ IH]; simpl.
    + apply sublist_nil_l.
    + unfold eq_fold in Hab. rewrite Hab. by constructor.
    + by constructor.
Qed.

Lemma fuzzyMatch_fold (text query : gostring) :
  fuzzyMatch (ToUpper CaseRanges text) (ToUpper CaseRanges query) = true
  <-> subseq_fold CaseRanges query text.
Proof. by rewrite fuzzyMatch_sublist, sublist_ToUpper. Qed.

Lemma filterLoop_fuzzy suggestions query :
  Filtered (fuzzyKept CaseRanges query) suggestions
    (filterLoop CaseRanges suggestions (ToUpper CaseRanges query) true fuzzyMatch).
Proof.
  induction suggestions as [|sg rest IH]; simpl; [constructor|].
  destruct (fuzzyMatch (ToUpper CaseRanges (Text sg)) (ToUpper CaseRanges query)) eqn:Hc;
    simpl.
  - apply Filtered_keep; [|done]. left. by apply fuzzyMatch_fold.
  - destruct (fuzzyMatch (ToUpper CaseRanges (Description sg))
                (ToUpper CaseRanges query)) eqn:Hd.
    + apply Filtered_keep; [|done]. right. by apply fuzzyMatch_fold.
    + apply Filtered_drop; [|done]. intros [H|H]; apply fuzzyMatch_fold in H; congruence.
Qed.

Lemma Filtered_all {A} (P : A -> Prop) l : (forall x, P x) -> Filtered P l l.
Proof. intros HP. induction l; constructor; auto. Qed.

(** C7: with the fuzzy matcher and case ignored, the filter keeps a
    candidate exactly when the runes of the query occur, up to case and
    in their order, in its key or in its description; the query [bg]
    keeps [fix] ("A bug fix") and drops [feat] ("A new feature"). *)
Theorem fuzzy_filter_keeps_iff_subsequence (suggestions : list Suggest) (query : gostring) :
  Filtered (fuzzyKept CaseRanges query) suggestions
    (filterSuggestions CaseRanges suggestions query true fuzzyMatch)
  /\ filterSuggestions CaseRanges
       [mkSuggest (str "fix") (str "A bug fix");
        mkSuggest (str "feat") (str "A new feature")] (str "bg") true fuzzyMatch
     = [mkSuggest (str "fix") (str "A bug fix")].
Proof.
  split; [|reflexivity].
  unfold filterSuggestions. destruct query as [|a query]; simpl is_empty; cbv iota.
  - apply Filtered_all. intros sg. left. constructor.
  - apply filterLoop_fuzzy.
Qed.

Lemma filterLoop_sublist suggestions sub ignoreCase function :
  sublist (filterLoop CaseRanges suggestions sub ignoreCase function) suggestions.
Proof.
  induction suggestions as [|sg rest IH]; simpl; [constructor|].
  match goal with |- context [if ?b then _ else _] => destruct b end;
    by constructor.
Qed.

(** C9: whatever the query and the matching predicate, the filter
    returns a sublist of the candidates it was given: the kept ones in
    their order, none repeated or moved. *)
Theorem filterSuggestions_sublist (suggestions : list Suggest) (sub : gostring)
    (ignoreCase : bool) (function : gostring -> gostring -> bool) :
  sublist (filterSuggestions CaseRanges suggestions sub ignoreCase function) suggestions.
Proof.
  unfold filterSuggestions. destruct (is_empty sub); [reflexivity|].
  apply filterLoop_sublist.
Qed.
End WithCase.
End CompletionFacts.

(** ** The prompts *)
Module PromptFacts.
Import Completion Config Composer Examples.

Lemma om_Get_Keys {V} (m : OrderedMap V) k : is_Some (om_Get m k) <-> k ∈ om_Keys m.
Proof.
  induction m as [|[k' v] m IH]; simpl.
  - split; [intros [? ?]; discriminate | intros H; inversion H].
  - destruct (decide (k' = k)) as [->|Hne].
    + split; [intros _; by left | by eexists].
    + rewrite IH. split; [by right|].
      intros [Heq|Hin]%elem_of_cons; [congruence | done].
Qed.

Lemma is_empty_true (s : gostring) : is_empty s = true <-> s = [].
Proof. destruct s; simpl; split; congruence. Qed.

Lemma is_empty_false (s : gostring) : is_empty s = false <-> s <> [].
Proof. destruct s; simpl; split; congruence. Qed.

(** One turn of the loop of [promptType] on a non-empty line. *)
Lemma typeLoop_nonempty c line inp w :
  line <> [] ->
  typeLoop c (line :: inp) w =
    if DenyAdlibType (rule c) then
      match om_Get (Types (rule c)) line with
      | Some _ => Done line (set_input inp w)
      | None => typeLoop c inp (eprint AdlibNotAllowed (set_input inp w))
      end
    else Done line (set_input inp w).
Proof.
  intros Hne. destruct line as [|r line]; [done|]. simpl.
  destruct (DenyAdlibType (rule c)); [|done].
  by destruct (om_Get (Types (rule c)) (r :: line)).
Qed.

(** The loop never ends with the empty string. *)
Lemma typeLoop_result_nonempty c inp w typ w' :
  typeLoop c inp w = Done typ w' -> typ <> [].
Proof.
  revert w. induction inp as [|line inp IH]; intros w H; [discriminate|].
  destruct line as [|r line].
  - simpl in H. destruct (DenyEmptyType (rule c)); simpl in H; by eapply IH.
  - rewrite typeLoop_nonempty in H by done.
    destruct (DenyAdlibType (rule c)).
    + destruct (om_Get (Types (rule c)) (r :: line)).
      * by inversion H.
      * by eapply IH.
    + by inversion H.
Qed.

(** C3: an empty line is never accepted. Whatever [DenyEmptyType] says,
    the loop goes on to the next line, and the flag only decides whether
    "type is required" is printed; with [DenyEmptyType] false and the
    lines "" and "feat" the prompt returns "feat". *)
Theorem promptType_empty_line_reprompts (c : globalCmd) (inp : list gostring) (w : World) :
  typeLoop c ([] :: inp) w =
    typeLoop c inp (if DenyEmptyType (rule c)
                    then eprint TypeRequired (set_input inp w)
                    else set_input inp w)
  /\ promptType (mkCmd (defaultRule false) [] ∅) (quietWorld [[]; str "feat"] 0)
     = Done (str "feat") (quietWorld [] 0).
Proof.
  split; [|reflexivity].
  simpl. by destruct (DenyEmptyType (rule c)).
Qed.

(** C6: the first of the two blank lines that end the body is joined to
    it: for the lines "dummy text", "", "" the stored body is
    "dummy text" followed by a newline. A blank line met while the body
    is still empty adds nothing. *)
Theorem promptBody_keeps_first_blank_line :
  bodyLoop [str "dummy text"; []; []] false [] = (str "dummy text" ++ LF, [])
  /\ bodyLoop [[]; str "a"; []; []] false [] = (str "a" ++ LF, []).
Proof. split; reflexivity. Qed.

Lemma joinLines_cons l lines :
  joinLines (l :: lines) = l ++ concat (map (fun x => LF ++ x) lines).
Proof.
  revert l. induction lines as [|l' lines IH]; intros l.
  - simpl. by rewrite app_nil_r.
  - change (joinLines (l :: l' :: lines)) with (l ++ LF ++ joinLines (l' :: lines)).
    rewrite IH. reflexivity.
Qed.

Lemma bodyLoop_nonblank lines rest body :
  body <> [] -> Forall (fun l => TrimSpace l <> []) lines ->
  bodyLoop (lines ++ [] :: [] :: rest) false body
  = (body ++ concat (map (fun x => LF ++ x) (map TrimSpace lines)) ++ LF, rest).
Proof.
  revert body. induction lines as [|l lines IH]; intros body Hbody Hall.
  - cbn. unfold appendLine. apply is_empty_false in Hbody as ->. cbn.
    by rewrite app_nil_r.
  - apply Forall_cons in Hall as [Hl Hall].
    change ((l :: lines) ++ [] :: [] :: rest) with (l :: (lines ++ [] :: [] :: rest)).
    cbn [bodyLoop]. rewrite (proj2 (is_empty_false _) Hl).
    rewrite IH; [|by unfold appendLine; destruct body | done].
    unfold appendLine. rewrite (proj2 (is_empty_false _) Hbody). cbn [negb map concat].
    by rewrite <- !app_assoc.
Qed.

(** Whatever non-blank lines come before the two blank ones, the stored
    body is their trimmed texts joined by newlines and one more newline
    after them. *)
Lemma promptBody_trailing_newline lines rest :
  lines <> [] -> Forall (fun l => TrimSpace l <> []) lines ->
  bodyLoop (lines ++ [] :: [] :: rest) false []
  = (joinLines (map TrimSpace lines) ++ LF, rest).
Proof.
  intros Hne Hall. destruct lines as [|l lines]; [done|].
  apply Forall_cons in Hall as [Hl Hall].
  change ((l :: lines) ++ [] :: [] :: rest) with (l :: (lines ++ [] :: [] :: rest)).
  cbn [bodyLoop]. rewrite (proj2 (is_empty_false _) Hl).
  change (appendLine [] (TrimSpace l)) with (TrimSpace l).
  rewrite bodyLoop_nonblank by done.
  change (map TrimSpace (l :: lines)) with (TrimSpace l :: map TrimSpace lines).
  by rewrite joinLines_cons, <- app_assoc.
Qed.

Lemma typeItemsLoop_keys Emojize c keys sg :
  sg ∈ typeItemsLoop Emojize c keys ->
  Text sg ∈ keys /\ HasPrefix (Text sg) (str "#") = false
  /\ exists ct, om_Get (Types (rule c)) (Text sg) = Some ct /\ Desc ct <> [].
Proof.
  induction keys as [|k keys IH]; cbn [typeItemsLoop]; [by intros ?%elem_of_nil|].
  assert (Hrec : sg ∈ typeItemsLoop Emojize c keys ->
    Text sg ∈ k :: keys /\ HasPrefix (Text sg) (str "#") = false
    /\ exists ct, om_Get (Types (rule c)) (Text sg) = Some ct /\ Desc ct <> []).
  { intros H. destruct (IH H) as (? & ? & ?). split; [by right | done]. }
  destruct (HasPrefix k (str "#")) eqn:Hp; [done|].
  destruct (om_Get (Types (rule c)) k) as [ct|] eqn:Hget; [|done].
  destruct (is_empty (Desc ct)) eqn:Hd; [done|].
  intros [->|H]%elem_of_cons; [|by apply Hrec]. simpl.
  split; [by left|]. split; [done|]. exists ct. split; [done|].
  by apply is_empty_false.
Qed.

(** C10, as amended: with [DenyAdlibType] set, a non-empty line is
    accepted exactly when it is a key of the registry: a non-empty key is
    returned at once, any other non-empty line is answered with "ad-lib
    type is not allowed" and the prompt asks again. Every suggestion is a
    key, and a key that starts with [#] or whose description is empty is
    not among the suggestions, so such a key, when not empty, is accepted
    without ever being offered. What happens to the empty line is the
    matter of [DenyEmptyType], not of this check. *)
Theorem denyAdlib_accepts_nonempty_keys (Emojize : gostring -> gostring)
    (c : globalCmd) :
  DenyAdlibType (rule c) = true ->
  (forall k inp w, k <> [] -> k ∈ om_Keys (Types (rule c)) ->
     promptType c (set_input (k :: inp) w) = Done k (set_input inp w))
  /\ (forall k inp w, k <> [] -> k ∉ om_Keys (Types (rule c)) ->
       promptType c (set_input (k :: inp) w)
       = promptType c (eprint AdlibNotAllowed (set_input inp w)))
  /\ (forall sg, sg ∈ typeItems Emojize c -> Text sg ∈ om_Keys (Types (rule c)))
  /\ (forall k, HasPrefix k (str "#") = true
              \/ (exists ct, om_Get (Types (rule c)) k = Some ct /\ Desc ct = []) ->
       k ∉ map Text (typeItems Emojize c)).
Proof.
  intros Hdeny. repeat split.
  - intros k inp w Hne [ct Hget]%om_Get_Keys. unfold promptType. simpl input.
    rewrite typeLoop_nonempty by done. by rewrite Hdeny, Hget.
  - intros k inp w Hne Hk. unfold promptType. simpl input.
    rewrite typeLoop_nonempty by done. rewrite Hdeny.
    destruct (om_Get (Types (rule c)) k) eqn:Hget; [|done].
    exfalso. apply Hk, om_Get_Keys. by eexists.
  - intros sg Hsg. by apply typeItemsLoop_keys in Hsg as (? & _).
  - intros k Hk [sg [-> Hsg]]%list_elem_of_fmap.
    apply typeItemsLoop_keys in Hsg as (_ & Hp & ct & Hget & Hd).
    destruct Hk as [Hk | (ct' & Hget' & Hd')]; congruence.
Qed.

Lemma denyAdlib_accepts_nonempty_keys_witness :
  DenyAdlibType (rule (mkCmd strictRule [] ∅)) = true
  /\ promptType (mkCmd strictRule [] ∅) (set_input [str "# comment1"] (quietWorld [] 0))
     = Done (str "# comment1") (set_input [] (quietWorld [] 0)).
Proof.
  split; [reflexivity|].
  apply (denyAdlib_accepts_nonempty_keys (fun e => e) (mkCmd strictRule [] ∅));
    [reflexivity | discriminate |].
  vm_compute. repeat constructor.
Defined.

(** C10, as stated, fails: the empty string can be a key of the registry,
    and with [DenyEmptyType] set the first check of the loop rejects the
    empty line although it is a key: "type is required" is printed, the
    prompt asks again, and the empty key is never the chosen type. *)
Lemma empty_key_is_rejected_when_empty_denied :
  DenyAdlibType emptyKeyRule = true
  /\ DenyEmptyType emptyKeyRule = true
  /\ [] ∈ om_Keys (Types emptyKeyRule)
  /\ forall inp w,
       promptType (mkCmd emptyKeyRule [] ∅) (set_input ([] :: inp) w)
       = promptType (mkCmd emptyKeyRule [] ∅)
           (eprint TypeRequired (set_input inp w))
       /\ forall w',
            promptType (mkCmd emptyKeyRule [] ∅) (set_input ([] :: inp) w)
            <> Done [] w'.
Proof.
  split; [reflexivity|]. split; [reflexivity|].
  split; [vm_compute; repeat constructor|].
  intros inp w. split; [reflexivity|].
  intros w' H. by apply typeLoop_result_nonempty in H.
Qed.
End PromptFacts.

(** ** The configuration readers *)
Module ConfigFacts.
Import Config Composer Instances.

Section Readers.
Variable EqualFold : gostring -> gostring -> bool.
Variable yaml_Unmarshal_Rule : gostring -> Rule -> Rule * option error.
Variable json_Unmarshal_Rule : gostring -> Rule -> Rule * option error.
Variable yaml_Unmarshal_Scopes : gostring -> Scopes -> Scopes * option error.
Variable json_Unmarshal_Scopes : gostring -> Scopes -> Scopes * option error.
Variable fs : gostring -> FileState.
Variable Options_Get : list (gostring * gostring) -> gostring -> gostring.
Variable filepath_Join : gostring -> gostring -> gostring.
Variable findcfg_Find : Finder -> option Found.
Variable findcfg_FallbackPath : Finder -> gostring.

Let tryRule := tryReadRuleFile EqualFold yaml_Unmarshal_Rule json_Unmarshal_Rule fs.
Let tryScopes := tryReadScopesFile EqualFold yaml_Unmarshal_Scopes json_Unmarshal_Scopes fs.
Let readRule :=
  readRuleFile EqualFold yaml_Unmarshal_Rule json_Unmarshal_Rule fs
    Options_Get filepath_Join findcfg_Find findcfg_FallbackPath.
Let readScopes :=
  readScopesFile EqualFold yaml_Unmarshal_Scopes json_Unmarshal_Scopes fs
    Options_Get filepath_Join findcfg_Find findcfg_FallbackPath.
Let prepare_ :=
  prepare EqualFold yaml_Unmarshal_Rule json_Unmarshal_Rule
    yaml_Unmarshal_Scopes json_Unmarshal_Scopes fs
    Options_Get filepath_Join findcfg_Find findcfg_FallbackPath.

Lemma decodeWith_error {T} (dec : gostring -> T -> T * option error) content v :
  is_Some (snd (decodeWith dec content v)) -> fst (decodeWith dec content v) = None.
Proof.
  unfold decodeWith. destruct (dec content v) as [v' [err|]]; simpl; [done|].
  by intros [? ?].
Qed.

(** A failed read of the rule file found makes [readRuleFile] return the
    built-in rule. *)
Lemma readRuleFile_error repos found :
  findcfg_Find (ruleFinder Options_Get filepath_Join repos) = Some found ->
  is_Some (snd (tryRule (Path found))) ->
  readRule repos
  = (Some (defaultRule false),
     findcfg_FallbackPath (ruleFinder Options_Get filepath_Join repos)).
Proof.
  intros Hfind [e He]. unfold readRule, readRuleFile. rewrite Hfind.
  fold tryRule. destruct (tryRule (Path found)) as [r oe]. simpl in He. by subst.
Qed.

(** A failed read of the scope history found makes [readScopesFile] return
    no history, and [prepare] then starts from the empty one. *)
Lemma readScopesFile_error repos found :
  findcfg_Find (scopesFinder Options_Get filepath_Join repos) = Some found ->
  is_Some (snd (tryScopes (Path found))) ->
  readScopes repos
  = (None, findcfg_FallbackPath (scopesFinder Options_Get filepath_Join repos)).
Proof.
  intros Hfind [e He]. unfold readScopes, readScopesFile. rewrite Hfind.
  fold tryScopes. destruct (tryScopes (Path found)) as [r oe]. simpl in He. by subst.
Qed.

(** The test [in(ext, a, b)] is [strings.EqualFold] with one of the two
    choices. *)
Lemma in_two s a b : in_ EqualFold s [a; b] = EqualFold s a || EqualFold s b.
Proof. unfold in_. cbn [length Nat.eqb existsb]. by rewrite orb_false_r. Qed.

Lemma in_one s a : in_ EqualFold s [a] = EqualFold s a.
Proof. unfold in_. cbn [length Nat.eqb existsb]. by rewrite orb_false_r. Qed.

(** C8: a regular file whose extension is [.yaml] or [.yml] up to case
    (as [strings.EqualFold] has it) is decoded by the YAML decoder alone,
    one whose extension is [.json] by the JSON decoder alone, and a
    decoding error under such an extension is the reader's error; with
    any other extension the YAML decoder runs first and the JSON decoder
    only after it failed, and the reader fails only when both did. After
    a reader's error the caller takes the built-in rule, respectively the
    empty scope history. *)
Theorem format_follows_extension (filename content : gostring) :
  fs filename = Regular content ->
  let isYaml := EqualFold (Ext filename) (str ".yaml")
                || EqualFold (Ext filename) (str ".yml") in
  let isJson := EqualFold (Ext filename) (str ".json") in
  (isYaml = true ->
     tryRule filename = decodeWith yaml_Unmarshal_Rule content zeroRule
     /\ tryScopes filename = decodeWith yaml_Unmarshal_Scopes content ∅)
  /\ (isYaml = false -> isJson = true ->
     tryRule filename = decodeWith json_Unmarshal_Rule content zeroRule
     /\ tryScopes filename = decodeWith json_Unmarshal_Scopes content ∅)
  /\ (isYaml = false -> isJson = false ->
     tryRule filename
       = match yaml_Unmarshal_Rule content zeroRule with
         | (r, None) => (Some r, None)
         | (r, Some _) => decodeWith json_Unmarshal_Rule content r
         end
     /\ tryScopes filename
       = match yaml_Unmarshal_Scopes content ∅ with
         | (sc, None) => (Some sc, None)
         | (sc, Some _) => decodeWith json_Unmarshal_Scopes content sc
         end)
  /\ (forall repos found,
        findcfg_Find (ruleFinder Options_Get filepath_Join repos) = Some found ->
        Path found = filename -> is_Some (snd (tryRule filename)) ->
        fst (readRule repos) = Some (defaultRule false))
  /\ (forall repos found,
        findcfg_Find (scopesFinder Options_Get filepath_Join repos) = Some found ->
        Path found = filename -> is_Some (snd (tryScopes filename)) ->
        fst (readScopes repos) = None
        /\ forall c, prepare_ repos = Some c -> scopes c = ∅).
Proof.
  intros Hfs isYaml isJson.
  assert (Hrule : tryRule filename =
    if isYaml then decodeWith yaml_Unmarshal_Rule content zeroRule
    else if isJson then decodeWith json_Unmarshal_Rule content zeroRule
    else match yaml_Unmarshal_Rule content zeroRule with
         | (r, None) => (Some r, None)
         | (r, Some _) => decodeWith json_Unmarshal_Rule content r
         end).
  { unfold tryRule, tryReadRuleFile, decodeWith. rewrite Hfs, in_two, in_one.
    fold isYaml isJson.
    destruct isYaml; [done|]. destruct isJson; [done|].
    destruct (yaml_Unmarshal_Rule content zeroRule) as [r [?|]]; done. }
  assert (Hscopes : tryScopes filename =
    if isYaml then decodeWith yaml_Unmarshal_Scopes content ∅
    else if isJson then decodeWith json_Unmarshal_Scopes content ∅
    else match yaml_Unmarshal_Scopes content ∅ with
         | (sc, None) => (Some sc, None)
         | (sc, Some _) => decodeWith json_Unmarshal_Scopes content sc
         end).
  { unfold tryScopes, tryReadScopesFile, decodeWith. rewrite Hfs, in_two, in_one.
    fold isYaml isJson.
    destruct isYaml; [done|]. destruct isJson; [done|].
    destruct (yaml_Unmarshal_Scopes content ∅) as [sc [?|]]; done. }
  split; [|split; [|split; [|split]]].
  - intros Hy. by rewrite Hrule, Hscopes, Hy.
  - intros Hy Hj. by rewrite Hrule, Hscopes, Hy, Hj.
  - intros Hy Hj. by rewrite Hrule, Hscopes, Hy, Hj.
  - intros repos found Hfind <- Herr.
    by rewrite (readRuleFile_error repos found Hfind Herr).
  - intros repos found Hfind <- Herr.
    pose proof (readScopesFile_error repos found Hfind Herr) as Hread.
    split; [by rewrite Hread|].
    intros c. unfold prepare_, prepare. fold readScopes. rewrite Hread.
    destruct (readRuleFile _ _ _ _ _ _ _ _ repos) as [[r|] ?]; [|done].
    by intros [= <-].
Qed.
End Readers.

(** The four cases on files of the toy decoders: [.cx.YML] holds a JSON
    text and is given to the YAML decoder alone, which fails; [.cx.yaml]
    likewise for the scope history; [.cx.json] holds a YAML text and is
    given to the JSON decoder alone, which fails; [.cx.txt] holds a JSON
    text, on which the YAML decoder fails and the JSON decoder then
    succeeds. *)
Lemma format_follows_extension_witness :
  tryReadRuleFile asciiEqualFold toyYamlRule toyJsonRule
    (fun _ => Regular (str "{oops")) (str "/repo/.cx.YML")
  = (None, Some (str "yaml: did not find expected key"))
  /\ tryReadScopesFile asciiEqualFold toyYamlScopes toyJsonScopes
       (fun _ => Regular (str "{oops")) (str "/repo/.cx.yaml")
     = (None, Some (str "yaml: did not find expected key"))
  /\ tryReadRuleFile asciiEqualFold toyYamlRule toyJsonRule
       (fun _ => Regular (str "plain")) (str "/repo/.cx.json")
     = (None, Some (str "invalid character looking for beginning of value"))
  /\ tryReadScopesFile asciiEqualFold toyYamlScopes toyJsonScopes
       (fun _ => Regular (str "{oops")) (str "/repo/.cx.txt")
     = (Some {[ str "{oops" := 0%Z ]}, None).
Proof.
  pose proof (format_follows_extension asciiEqualFold toyYamlRule toyJsonRule
                toyYamlScopes toyJsonScopes (fun _ => Regular (str "{oops"))
                firstOption slashJoin (fun _ => None) (fun _ => [])
                (str "/repo/.cx.YML") (str "{oops") eq_refl) as (Hyml & _).
  pose proof (format_follows_extension asciiEqualFold toyYamlRule toyJsonRule
                toyYamlScopes toyJsonScopes (fun _ => Regular (str "{oops"))
                firstOption slashJoin (fun _ => None) (fun _ => [])
                (str "/repo/.cx.yaml") (str "{oops") eq_refl) as (Hyaml & _).
  pose proof (format_follows_extension asciiEqualFold toyYamlRule toyJsonRule
                toyYamlScopes toyJsonScopes (fun _ => Regular (str "plain"))
                firstOption slashJoin (fun _ => None) (fun _ => [])
                (str "/repo/.cx.json") (str "plain") eq_refl) as (_ & Hjson & _).
  pose proof (format_follows_extension asciiEqualFold toyYamlRule toyJsonRule
                toyYamlScopes toyJsonScopes (fun _ => Regular (str "{oops"))
                firstOption slashJoin (fun _ => None) (fun _ => [])
                (str "/repo/.cx.txt") (str "{oops") eq_refl) as (_ & _ & Hother & _).
  destruct (Hyml eq_refl) as [-> _].
  destruct (Hyaml eq_refl) as [_ ->].
  destruct (Hjson eq_refl eq_refl) as [-> _].
  destruct (Hother eq_refl eq_refl) as [_ ->].
  repeat split; reflexivity.
Defined.
End ConfigFacts.

(** ** The scope history written back *)
Module ScopesFacts.
Import Config Composer Instances Examples PromptFacts.

Lemma om_Set_fresh {V} (m : OrderedMap V) k v :
  k ∉ om_Keys m -> om_Set m k v = m ++ [(k, v)].
Proof.
  induction m as [|[k' v'] m IH]; simpl; [done|].
  intros [Hne Hk]%not_elem_of_cons.
  destruct (decide (k' = k)); [congruence|]. by rewrite IH.
Qed.

(** Setting keys that are all different and all new appends them in
    their order. *)
Lemma foldl_om_Set (l : list tmpscope) (acc : OrderedMap Time) :
  NoDup (map s_scope l) ->
  (forall s, s ∈ l -> s_scope s ∉ om_Keys acc) ->
  foldl (fun om s => om_Set om (s_scope s) (s_ts s)) acc l = acc ++ map entryOf l.
Proof.
  revert acc. induction l as [|s l IH]; intros acc Hnd Hfresh; simpl.
  - by rewrite app_nil_r.
  - apply NoDup_cons in Hnd as [Hs Hnd].
    rewrite om_Set_fresh by (apply Hfresh; by left).
    rewrite IH; [by rewrite <- app_assoc | done |].
    intros s' Hs'. unfold om_Keys. rewrite map_app. simpl.
    intros [Hin|Hin]%elem_of_app.
    + by apply (Hfresh s'); [right|].
    + apply list_elem_of_singleton in Hin. apply Hs. rewrite <- Hin.
      by apply list_elem_of_fmap_2.
Qed.

Lemma After_StrictWeak :
  StrictWeak (fun si sj : tmpscope => After (s_ts si) (s_ts sj)).
Proof.
  unfold After. split.
  - intros a. apply Z.ltb_irrefl.
  - intros a b c H1%Z.ltb_lt H2%Z.ltb_lt. apply Z.ltb_lt. lia.
  - intros a b c H1%Z.ltb_ge H2%Z.ltb_ge. apply Z.ltb_ge. lia.
Qed.

Section WriteBack.
Variable EqualFold : gostring -> gostring -> bool.
Variable range_Scopes : Scopes -> list (gostring * Time).
Variable sort_Slice : list tmpscope -> (tmpscope -> tmpscope -> bool) -> list tmpscope.

(** [range] yields every entry of the map once, in some order. *)
Hypothesis range_Scopes_perm : forall m : Scopes, range_Scopes m ≡ₚ map_to_list m.

(** [sort.Slice] permutes the slice and, for a strict weak ordering,
    leaves it sorted. *)
Hypothesis sort_Slice_perm : forall l less, sort_Slice l less ≡ₚ l.
Hypothesis sort_Slice_sorted :
  forall l less, StrictWeak less -> SortedBy less (sort_Slice l less).

Let writeBack := writeBackScopes EqualFold range_Scopes sort_Slice.

Lemma writeBackScopes_skips c scope w :
  scope = [] \/ scopesFileName c = [] -> writeBack c scope w = Done tt w.
Proof.
  unfold writeBack, writeBackScopes.
  intros [-> | ->]; [done|]. by destruct (is_empty scope).
Qed.

(** What the block writes when it runs. *)
Lemma writeBackScopes_writes c scope w :
  scope <> [] -> scopesFileName c <> [] ->
  create_fails w (scopesFileName c) = false ->
  exists fw w',
    writeBack c scope w = Done tt w'
    /\ files w' = files w ++ [fw]
    /\ target fw = scopesFileName c
    /\ entries fw ≡ₚ map_to_list (<[scope := clock w]> (scopes c))
    /\ Descending (entries fw).
Proof.
  intros Hscope Hfile Hcreate.
  unfold writeBack, writeBackScopes.
  apply is_empty_false in Hscope as ->. apply is_empty_false in Hfile as ->.
  cbn [negb andb]. unfold bind, time_Now, writeScopes. rewrite Hcreate.
  set (m' := <[scope := clock w]> (scopes c)).
  set (mk := fun kv : gostring * Time => {| s_scope := kv.1; s_ts := kv.2 |}).
  set (less := fun si sj : tmpscope => After (s_ts si) (s_ts sj)).
  set (sorted := sort_Slice (map mk (range_Scopes m')) less).
  assert (Hperm : map entryOf sorted ≡ₚ map_to_list m').
  { unfold sorted. rewrite sort_Slice_perm, range_Scopes_perm.
    rewrite map_map. erewrite map_ext; [by rewrite map_id|]. by intros [k t]. }
  assert (Hnd : NoDup (map s_scope sorted)).
  { assert (Hk : map s_scope sorted ≡ₚ map fst (map_to_list m')).
    { rewrite <- Hperm, map_map. done. }
    rewrite Hk. apply NoDup_fst_map_to_list. }
  assert (Hout : foldl (fun om s => om_Set om (s_scope s) (s_ts s)) [] sorted
                 = map entryOf sorted).
  { rewrite foldl_om_Set; [done | done |]. intros s _. apply not_elem_of_nil. }
  rewrite Hout.
  assert (Hdesc : Descending (map entryOf sorted)).
  { unfold Descending.
    pose proof (sort_Slice_sorted (map mk (range_Scopes m')) less After_StrictWeak)
      as Hs. fold sorted in Hs. unfold SortedBy in Hs.
    eapply (StronglySorted_fmap entryOf); [|exact Hs].
    intros a b Hb. unfold less, After in Hb. simpl. by apply Z.ltb_ge. }
  match goal with |- context [fwrite ?f w] => set (fw := f) end.
  exists fw. destruct (write_fails (fwrite fw w) (scopesFileName c)) as [err|];
    eexists; (split; [reflexivity|]); simpl; done.
Qed.

(** C4: when the scope history is written, its pairs are in descending
    order of time stamp, and a scope recorded at a time later than every
    entry of the history is the first pair. *)
Theorem scopes_written_most_recent_first (c : globalCmd) (scope : gostring) (w : World) :
  scope <> [] -> scopesFileName c <> [] ->
  create_fails w (scopesFileName c) = false ->
  exists fw w',
    writeBack c scope w = Done tt w'
    /\ files w' = files w ++ [fw]
    /\ entries fw ≡ₚ map_to_list (<[scope := clock w]> (scopes c))
    /\ Descending (entries fw)
    /\ ((forall k t, scopes c !! k = Some t -> (t < clock w)%Z) ->
        head (entries fw) = Some (scope, clock w)).
Proof.
  intros Hscope Hfile Hcreate.
  destruct (writeBackScopes_writes c scope w Hscope Hfile Hcreate)
    as (fw & w' & Hrun & Hfiles & _ & Hperm & Hdesc).
  exists fw, w'. repeat (split; [done|]).
  intros Hlater.
  assert (Hnew : (scope, clock w) ∈ entries fw).
  { rewrite Hperm. apply elem_of_map_to_list. apply lookup_insert_eq. }
  destruct (entries fw) as [|[k0 t0] rest] eqn:He; [by apply elem_of_nil in Hnew|].
  simpl. f_equal.
  assert (H0 : (k0, t0) ∈ map_to_list (<[scope := clock w]> (scopes c))).
  { rewrite <- Hperm. by left. }
  apply elem_of_map_to_list in H0.
  destruct (decide (k0 = scope)) as [->|Hne].
  - rewrite lookup_insert_eq in H0. by inversion H0.
  - rewrite lookup_insert_ne in H0 by done. apply Hlater in H0.
    apply elem_of_cons in Hnew as [Heq|Hin]; [by inversion Heq|].
    unfold Descending in Hdesc. apply StronglySorted_inv in Hdesc as [_ Hall].
    rewrite Forall_forall in Hall. specialize (Hall _ Hin). simpl in Hall. lia.
Qed.
End WriteBack.

Lemma mergeSlice_perm l less : mergeSlice l less ≡ₚ l.
Proof. apply merge_sort_Permutation. Qed.

Lemma mergeSlice_sorted l less : StrictWeak less -> SortedBy less (mergeSlice l less).
Proof.
  intros [Hirr Htrans Hneg]. unfold SortedBy, mergeSlice.
  assert (Transitive (byLess less)).
  { intros a b c Hab Hbc. unfold byLess in *. by eapply Hneg. }
  assert (Total (byLess less)).
  { intros a b. unfold byLess. destruct (less b a) eqn:Hba; [|by left].
    right. destruct (less a b) eqn:Hab; [|done].
    by rewrite <- (Hirr a), (Htrans a b a Hab Hba). }
  apply (StronglySorted_merge_sort (byLess less)).
Qed.

Lemma scopes_written_most_recent_first_witness :
  exists fw w',
    writeBackScopes asciiEqualFold keyOrder mergeSlice twoScopes (str "hoge")
      (quietWorld [] 100) = Done tt w'
    /\ files w' = [fw]
    /\ Descending (entries fw)
    /\ head (entries fw) = Some (str "hoge", 100%Z).
Proof.
  destruct (scopes_written_most_recent_first asciiEqualFold keyOrder mergeSlice
              (fun m => reflexivity (map_to_list m)) mergeSlice_perm mergeSlice_sorted
              twoScopes (str "hoge") (quietWorld [] 100))
    as (fw & w' & Hrun & Hfiles & _ & Hdesc & Hhead);
    [discriminate | discriminate | reflexivity |].
  exists fw, w'. repeat (split; [done|]). apply Hhead.
  intros k t Hk. unfold twoScopes in Hk. simpl scopes in Hk.
  apply lookup_insert_Some in Hk as [[_ <-]|[_ [_ <-]%lookup_singleton_Some]];
    simpl; lia.
Defined.
End ScopesFacts.

(** ** Where the scope history is written *)
Module TargetFacts.
Import Config Composer Instances Examples PromptFacts ScopesFacts.

Section Target.
Variable EqualFold : gostring -> gostring -> bool.
Variable yaml_Unmarshal_Rule : gostring -> Rule -> Rule * option error.
Variable json_Unmarshal_Rule : gostring -> Rule -> Rule * option error.
Variable yaml_Unmarshal_Scopes : gostring -> Scopes -> Scopes * option error.
Variable json_Unmarshal_Scopes : gostring -> Scopes -> Scopes * option error.
Variable fs : gostring -> FileState.
Variable Options_Get : list (gostring * gostring) -> gostring -> gostring.
Variable filepath_Join : gostring -> gostring -> gostring.
Variable findcfg_Find : Finder -> option Found.
Variable findcfg_FallbackPath : Finder -> gostring.
Variable range_Scopes : Scopes -> list (gostring * Time).
Variable sort_Slice : list tmpscope -> (tmpscope -> tmpscope -> bool) -> list tmpscope.

Hypothesis range_Scopes_perm : forall m : Scopes, range_Scopes m ≡ₚ map_to_list m.
Hypothesis sort_Slice_perm : forall l less, sort_Slice l less ≡ₚ l.
Hypothesis sort_Slice_sorted :
  forall l less, StrictWeak less -> SortedBy less (sort_Slice l less).

Let tryScopes := tryReadScopesFile EqualFold yaml_Unmarshal_Scopes json_Unmarshal_Scopes fs.
Let readScopes :=
  readScopesFile EqualFold yaml_Unmarshal_Scopes json_Unmarshal_Scopes fs
    Options_Get filepath_Join findcfg_Find findcfg_FallbackPath.
Let prepare_ :=
  prepare EqualFold yaml_Unmarshal_Rule json_Unmarshal_Rule
    yaml_Unmarshal_Scopes json_Unmarshal_Scopes fs
    Options_Get filepath_Join findcfg_Find findcfg_FallbackPath.
Let writeBack := writeBackScopes EqualFold range_Scopes sort_Slice.

(** A history that was found and decoded is handed to the run together
    with the override path, not with the path it was found at. *)
Lemma readScopesFile_found repos found sc :
  findcfg_Find (scopesFinder Options_Get filepath_Join repos) = Some found ->
  tryScopes (Path found) = (sc, None) ->
  readScopes repos = (sc, exactPathOf Options_Get filepath_Join repos configScopeHistory).
Proof.
  intros Hfind Htry. unfold readScopes, readScopesFile. rewrite Hfind.
  fold tryScopes. by rewrite Htry.
Qed.

(** C5, as amended: when a scope history was found and decoded, at
    whichever search location, and the chosen scope is not empty, the whole
    map is written exactly when the configuration names an override path,
    and it is written to that path. *)
Theorem scopes_written_to_override_path (repos : Repository) (found : Found)
    (sc : Scopes) (c : globalCmd) (scope : gostring) (w : World) :
  findcfg_Find (scopesFinder Options_Get filepath_Join repos) = Some found ->
  tryScopes (Path found) = (Some sc, None) ->
  prepare_ repos = Some c ->
  scope <> [] ->
  let exactPath := exactPathOf Options_Get filepath_Join repos configScopeHistory in
  scopes c = sc /\ scopesFileName c = exactPath
  /\ (exactPath = [] -> writeBack c scope w = Done tt w)
  /\ (exactPath <> [] -> create_fails w exactPath = false ->
      exists fw w',
        writeBack c scope w = Done tt w'
        /\ files w' = files w ++ [fw]
        /\ target fw = exactPath
        /\ entries fw ≡ₚ map_to_list (<[scope := clock w]> sc)).
Proof.
  intros Hfind Htry Hprep Hscope exactPath.
  assert (Hc : scopes c = sc /\ scopesFileName c = exactPath).
  { unfold prepare_, prepare in Hprep. fold readScopes in Hprep.
    rewrite (readScopesFile_found repos found (Some sc) Hfind Htry) in Hprep.
    destruct (readRuleFile _ _ _ _ _ _ _ _ repos) as [[r|] ?]; [|done].
    by inversion Hprep. }
  destruct Hc as [Hsc Hname]. repeat (split; [done|]). split.
  - intros Hnone. apply writeBackScopes_skips. right. congruence.
  - intros Hsome Hcreate.
    destruct (writeBackScopes_writes EqualFold range_Scopes sort_Slice
                range_Scopes_perm sort_Slice_perm sort_Slice_sorted c scope w)
      as (fw & w' & Hrun & Hfiles & Htarget & Hperm & _);
      [done | congruence | congruence |].
    exists fw, w'. rewrite <- Hsc, <- Hname. done.
Qed.
End Target.

(** A history found in the user's configuration directory is written to
    the override path of the repository's configuration. *)
Lemma scopes_written_to_override_path_witness :
  exists fw w',
    writeBackScopes asciiEqualFold keyOrder mergeSlice
      {| rule := defaultRule false; scopesFileName := str "/repo/myscopes.yaml";
         scopes := {[ str "old" := 0%Z ]} |}
      (str "hoge") (quietWorld [] 100) = Done tt w'
    /\ files w' = files (quietWorld [] 100) ++ [fw]
    /\ target fw = str "/repo/myscopes.yaml"
    /\ entries fw ≡ₚ map_to_list (<[str "hoge" := 100%Z]> {[ str "old" := 0%Z ]}).
Proof.
  pose proof (scopes_written_to_override_path asciiEqualFold
                (fun _ r => (defaultRule false, None)) toyJsonRule
                toyYamlScopes toyJsonScopes oneScopeFs firstOption slashJoin
                findAtUserDir exeFallback keyOrder mergeSlice
                (fun m => reflexivity (map_to_list m)) mergeSlice_perm mergeSlice_sorted
                overrideRepo
                {| Path := str "/home/u/.config/git-cx/.scope-history.yaml";
                   FoundAt := UserConfigDirTier |}
                {[ str "old" := 0%Z ]}
                {| rule := defaultRule false;
                   scopesFileName := str "/repo/myscopes.yaml";
                   scopes := {[ str "old" := 0%Z ]} |}
                (str "hoge") (quietWorld [] 100)) as H.
  destruct H as (_ & _ & _ & H); [reflexivity | reflexivity | reflexivity | discriminate |].
  apply H; [discriminate | reflexivity].
Defined.

(** C5, as stated, fails: a history found at the root of the work tree of
    a repository without an override path is not written back. *)
Lemma history_at_work_tree_root_not_written :
  findAtRoot (scopesFinder firstOption slashJoin plainRepo)
  = Some {| Path := str "/repo/.scope-history.yaml"; FoundAt := DirTier |}
  /\ tryReadScopesFile asciiEqualFold toyYamlScopes toyJsonScopes oneScopeFs
       (str "/repo/.scope-history.yaml")
     = (Some {[ str "old" := 0%Z ]}, None)
  /\ prepare asciiEqualFold (fun _ r => (defaultRule false, None)) toyJsonRule
       toyYamlScopes toyJsonScopes oneScopeFs firstOption slashJoin
       findAtRoot exeFallback plainRepo
     = Some {| rule := defaultRule false; scopesFileName := [];
               scopes := {[ str "old" := 0%Z ]} |}
  /\ writeBackScopes asciiEqualFold keyOrder mergeSlice
       {| rule := defaultRule false; scopesFileName := [];
          scopes := {[ str "old" := 0%Z ]} |}
       (str "hoge") (quietWorld [] 100)
     = Done tt (quietWorld [] 100).
Proof. repeat split; reflexivity. Qed.
End TargetFacts.

(** ** The header and the message *)
Module MessageFacts.
Import Config Composer Instances Examples PromptFacts.

Section Message.
Variable Emojize : gostring -> gostring.
Variable EqualFold : gostring -> gostring -> bool.
Variable Template : Type.
Variable template_Parse : gostring -> Template + error.
Variable template_Execute : Template -> Fields -> gostring * option error.
Variable range_Scopes : Scopes -> list (gostring * Time).
Variable sort_Slice : list tmpscope -> (tmpscope -> tmpscope -> bool) -> list tmpscope.

Let build := buildHeader Emojize Template template_Parse template_Execute.
Let buildup :=
  buildupCommitMessage Emojize EqualFold Template template_Parse template_Execute
    range_Scopes sort_Slice.
Let writeBack := writeBackScopes EqualFold range_Scopes sort_Slice.

Lemma writeBackScopes_total c scope w : exists w', writeBack c scope w = Done tt w'.
Proof.
  unfold writeBack, writeBackScopes.
  destruct (negb (is_empty scope) && negb (is_empty (scopesFileName c))); [|by eexists].
  unfold bind, time_Now, writeScopes.
  destruct (create_fails w (scopesFileName c)); [by eexists|].
  match goal with |- context [write_fails ?w' ?f] => destruct (write_fails w' f) end;
    by eexists.
Qed.

Lemma buildHeader_parse_error c typ scope desc bc w e :
  template_Parse (HeaderFormat (rule c)) = inr e ->
  build c typ scope desc bc w = Panic.
Proof. intros He. unfold build, buildHeader, bind. by rewrite He. Qed.

(** With a template that parses, the header is [renderedHeader]; a failed
    execution prints the error and the header format. *)
Lemma buildHeader_parsed c typ scope desc bc w t :
  template_Parse (HeaderFormat (rule c)) = inl t ->
  exists w',
    build c typ scope desc bc w
    = Done (renderedHeader Template template_Execute t
              (headerData Emojize c typ scope desc bc)) w'
    /\ w' = match snd (template_Execute t (headerData Emojize c typ scope desc bc)) with
            | Some err => eprint (TemplateError err (HeaderFormat (rule c))) w
            | None => w
            end.
Proof.
  intros Ht. unfold build, buildHeader, renderedHeader, bind. rewrite Ht.
  cbn [template_Must ret].
  fold (headerData Emojize c typ scope desc bc).
  destruct (template_Execute t (headerData Emojize c typ scope desc bc)) as [buf [err|]];
    eexists; (split; [|reflexivity]); [|done].
  unfold Fprintln_Stderr, ret. cbn [snd headerData f_type f_scope_with_parens f_bang
    f_description]. by rewrite <- !app_assoc.
Qed.

(** C1: a header format that does not parse makes [template.Must] panic:
    no header, no diagnostic and no message come out of the run. *)
Theorem invalid_header_format_panics (c : globalCmd)
    (typ scope desc breakingChange : gostring) (w : World) (e : error) :
  template_Parse (HeaderFormat (rule c)) = inr e ->
  build c typ scope desc breakingChange w = Panic
  /\ forall w0 msg w', buildup c w0 <> Done msg w'.
Proof.
  intros He. split; [by eapply buildHeader_parse_error|].
  intros w0 msg w'. unfold buildup, buildupCommitMessage, bind.
  destruct (promptType c w0) as [typ' w1| |]; [|done|done].
  destruct (promptScope c w1) as [scope' w2| |]; [|done|done].
  destruct (promptDesc c w2) as [desc' w3| |]; [|done|done].
  destruct (promptBody c w3) as [body' w4| |]; [|done|done].
  destruct (promptBreakingChange c w4) as [bc' w5| |]; [|done|done].
  destruct (writeBackScopes _ _ _ c scope' w5) as [[] w6| |]; [|done|done].
  fold build. by rewrite (buildHeader_parse_error c typ' scope' desc' bc' w6 e He).
Qed.

(** C2: with the five prompted strings and a header format that parses,
    the message is the rendered header, then a blank line and the body
    when the body is not empty, then the breaking-change footer when its
    text is not empty; the [bang] field given to the template is [!]
    exactly when that text is not empty; the text is the trimmed line, and
    no line is asked for when [UseBreakingChange] is false. *)
Theorem message_is_header_body_footer (c : globalCmd) (w w1 w2 w3 w4 w5 : World)
    (typ scope desc body breakingChange : gostring) (t : Template) :
  promptType c w = Done typ w1 ->
  promptScope c w1 = Done scope w2 ->
  promptDesc c w2 = Done desc w3 ->
  promptBody c w3 = Done body w4 ->
  promptBreakingChange c w4 = Done breakingChange w5 ->
  template_Parse (HeaderFormat (rule c)) = inl t ->
  let data := headerData Emojize c typ scope desc breakingChange in
  let header := renderedHeader Template template_Execute t data in
  (exists w',
     buildup c w
     = Done (header
             ++ (if is_empty body then [] else LF ++ LF ++ body)
             ++ (if is_empty breakingChange then []
                 else LF ++ str "BREAKING CHANGE: " ++ breakingChange)) w')
  /\ (f_bang data = str "!" <-> breakingChange <> [])
  /\ (if UseBreakingChange (rule c)
      then exists line rest,
             input w4 = line :: rest /\ breakingChange = TrimSpace line
             /\ w5 = set_input rest w4
      else breakingChange = [] /\ w5 = w4).
Proof.
  intros H1 H2 H3 H4 H5 Ht data header. split; [|split].
  - destruct (writeBackScopes_total c scope w5) as [w6 H6].
    destruct (buildHeader_parsed c typ scope desc breakingChange w6 t Ht)
      as (w7 & H7 & _).
    exists w7. unfold buildup, buildupCommitMessage, bind.
    rewrite H1, H2, H3, H4, H5. unfold writeBack in H6. rewrite H6.
    unfold build in H7. rewrite H7. unfold ret. f_equal.
    fold data. fold header.
    destruct (is_empty body), (is_empty breakingChange); cbn [negb];
      rewrite ?app_nil_r, <- ?app_assoc; done.
  - unfold data, headerData. cbn [f_bang].
    destruct breakingChange as [|r bc]; cbn [is_empty negb]; split; done.
  - unfold promptBreakingChange in H5.
    destruct (UseBreakingChange (rule c)).
    + unfold bind, prompt_Input, ret in H5.
      destruct (input w4) as [|line rest]; [discriminate|].
      inversion H5. by exists line, rest.
    + unfold ret in H5. by inversion H5.
Qed.
End Message.

(** A header format whose action selects a field of a string parses and
    then fails in [Execute]: the header is what was written before the
    action, followed by the fallback, which leaves the emoji out. *)
Lemma execute_error_header :
  buildHeader smallEmojize (list Piece) flatParse flatExecute
    {| rule := {| HeaderFormat := str "<{{.type.x}}>"; HeaderFormatHint := [];
                  Types := defaultCommitTypes true;
                  DenyEmptyType := false; DenyAdlibType := false;
                  UseBreakingChange := false |};
       scopesFileName := []; scopes := ∅ |}
    (str "feat") (str "hoge") (str "new feature hoge!") [] (quietWorld [] 0)
  = Done (str "<feat(hoge): new feature hoge!")
      (eprint (TemplateError (str "template: can't evaluate field in type string")
                 (str "<{{.type.x}}>"))
         (quietWorld [] 0)).
Proof. reflexivity. Qed.

Lemma message_is_header_body_footer_witness :
  exists w',
    buildupCommitMessage smallEmojize asciiEqualFold (list Piece) flatParse flatExecute
      keyOrder mergeSlice breakingCmd
      (quietWorld [str "feat"; str "hoge"; str "new feature hoge!";
                   str "dummy text"; []; []; str " removes old API "] 0)
    = Done (str "feat(hoge)!: " ++ [10024] ++ str "new feature hoge!"
            ++ LF ++ LF ++ str "dummy text" ++ LF
            ++ LF ++ str "BREAKING CHANGE: removes old API") w'.
Proof.
  edestruct (message_is_header_body_footer smallEmojize asciiEqualFold (list Piece)
               flatParse flatExecute keyOrder mergeSlice breakingCmd
               (quietWorld [str "feat"; str "hoge"; str "new feature hoge!";
                            str "dummy text"; []; []; str " removes old API "] 0))
    as [[w' Hw'] _];
    [reflexivity | reflexivity | reflexivity | reflexivity | reflexivity | reflexivity |].
  exists w'. exact Hw'.
Defined.

Lemma invalid_header_format_panics_witness :
  flatParse (HeaderFormat (rule brokenFormat))
  = inr (str "template: unclosed or malformed action")
  /\ buildHeader smallEmojize (list Piece) flatParse flatExecute brokenFormat
       (str "feat") (str "hoge") (str "new feature hoge!") [] (quietWorld [] 0)
     = Panic.
Proof.
  split; [reflexivity|].
  apply (invalid_header_format_panics smallEmojize asciiEqualFold (list Piece)
           flatParse flatExecute keyOrder mergeSlice brokenFormat
           (str "feat") (str "hoge") (str "new feature hoge!") [] (quietWorld [] 0)
           (str "template: unclosed or malformed action")).
  reflexivity.
Defined.
End MessageFacts.

(** * Further properties *)

(** ** Matching and filtering *)
Module CompletionLaws.
Import Completion CompletionFacts.

Lemma HasPrefix_app (s p : gostring) : HasPrefix s p = true <-> exists r, s = p ++ r.
Proof.
  revert s. induction p as [|b p IH]; intros s.
  - split; [intros _; by exists s | by destruct s].
  - destruct s as [|a s]; simpl.
    + split; [done | intros [r Hr]; discriminate Hr].
    + rewrite andb_true_iff, N.eqb_eq, IH. split.
      * intros [-> [r ->]]. by exists r.
      * intros [r Hr]. inversion Hr; subst. split; [done | by exists r].
Qed.

(** X1: [fuzzyMatch s sub] is true exactly when the runes of [sub] can be
    found in [s] in their order: the greedy scan misses no match. *)
Theorem fuzzyMatch_iff_subsequence (s sub : gostring) :
  fuzzyMatch s sub = true <-> sublist sub s.
Proof. apply fuzzyMatch_sublist. Qed.

(** X2: a string fuzzy-matches each of its prefixes, and a query longer
    than the string never matches. *)
Theorem fuzzyMatch_prefix_and_length (s sub : gostring) :
  (HasPrefix s sub = true -> fuzzyMatch s sub = true)
  /\ (fuzzyMatch s sub = true -> (length sub <= length s)%nat).
Proof.
  split.
  - intros [r ->]%HasPrefix_app. apply fuzzyMatch_sublist.
    by apply sublist_inserts_r.
  - intros H%fuzzyMatch_sublist. by apply sublist_length.
Qed.

Section Filtering.
Variable CaseRanges : rune -> rune.

Lemma filterLoop_app l1 l2 sub ignoreCase function :
  filterLoop CaseRanges (l1 ++ l2) sub ignoreCase function
  = filterLoop CaseRanges l1 sub ignoreCase function
    ++ filterLoop CaseRanges l2 sub ignoreCase function.
Proof.
  induction l1 as [|sg l1 IH]; simpl; [done|].
  match goal with |- context [if ?b then _ else _] => destruct b end;
    simpl; by rewrite IH.
Qed.

Lemma filterLoop_again l sub ignoreCase function :
  filterLoop CaseRanges (filterLoop CaseRanges l sub ignoreCase function)
    sub ignoreCase function
  = filterLoop CaseRanges l sub ignoreCase function.
Proof.
  induction l as [|sg l IH]; simpl; [done|].
  match goal with |- context [if ?b then _ else _] => destruct b eqn:Hb end;
    [|done].
  simpl. rewrite Hb. by rewrite IH.
Qed.

(** X3: filtering decides every candidate on its own: the result for two
    lists put end to end is the two results put end to end. *)
Theorem filterSuggestions_app (l1 l2 : list Suggest) (sub : gostring)
    (ignoreCase : bool) (function : gostring -> gostring -> bool) :
  filterSuggestions CaseRanges (l1 ++ l2) sub ignoreCase function
  = filterSuggestions CaseRanges l1 sub ignoreCase function
    ++ filterSuggestions CaseRanges l2 sub ignoreCase function.
Proof.
  unfold filterSuggestions. destruct (is_empty sub); [done|]. apply filterLoop_app.
Qed.

(** X4: filtering a second time with the same query and predicate changes
    nothing. *)
Theorem filterSuggestions_idempotent (l : list Suggest) (sub : gostring)
    (ignoreCase : bool) (function : gostring -> gostring -> bool) :
  filterSuggestions CaseRanges
    (filterSuggestions CaseRanges l sub ignoreCase function) sub ignoreCase function
  = filterSuggestions CaseRanges l sub ignoreCase function.
Proof.
  unfold filterSuggestions. destruct (is_empty sub); [done|]. apply filterLoop_again.
Qed.
End Filtering.
End CompletionLaws.

(** ** The prompts, line by line *)
Module PromptLaws.
Import Completion Config Composer Instances Examples PromptFacts.

Lemma validType_keys c line :
  validType c line = true
  <-> line <> [] /\ (DenyAdlibType (rule c) = true -> line ∈ om_Keys (Types (rule c))).
Proof.
  unfold validType. rewrite andb_true_iff, orb_true_iff, negb_true_iff, is_empty_false.
  rewrite <- om_Get_Keys. split; intros [Hne H]; (split; [done|]).
  - intros Hd. destruct H as [H|H]; [by rewrite Hd in H|].
    destruct (om_Get (Types (rule c)) line); [by eexists | done].
  - destruct (DenyAdlibType (rule c)); [|by left]. right.
    by destruct (H eq_refl) as [ct ->].
Qed.

(** One turn of the loop on a line it does not take. *)
Lemma typeLoop_rejects c line inp w :
  validType c line = false ->
  exists w1,
    typeLoop c (line :: inp) w = typeLoop c inp w1
    /\ input w1 = inp /\ stderr w1 = stderr w ++ rejectionDiag c line
    /\ files w1 = files w /\ clock w1 = clock w.
Proof.
  unfold validType, rejectionDiag. destruct line as [|r line].
  - intros _. cbn [typeLoop is_empty andb negb].
    destruct (DenyEmptyType (rule c)); eexists; (split; [reflexivity|]); simpl;
      by rewrite ?app_nil_r.
  - cbn [is_empty negb andb]. intros H.
    rewrite typeLoop_nonempty by done.
    destruct (DenyAdlibType (rule c)); [|done].
    destruct (om_Get (Types (rule c)) (r :: line)); [done|].
    eexists. split; [reflexivity|]. done.
Qed.

Lemma typeLoop_accepts c line inp w :
  validType c line = true -> typeLoop c (line :: inp) w = Done line (set_input inp w).
Proof.
  unfold validType. destruct line as [|r line]; [done|].
  cbn [is_empty negb andb]. intros H. rewrite typeLoop_nonempty by done.
  destruct (DenyAdlibType (rule c)); [|done].
  by destruct (om_Get (Types (rule c)) (r :: line)).
Qed.

(** X5: [promptType] returns the first submitted line that is not empty
    and, when ad-lib types are denied, is a key of the registry; the lines
    before it are used up, each with its diagnostic, and the lines after
    it are left for the next prompt. *)
Theorem promptType_first_valid_line (c : globalCmd) (w : World)
    (rejected : list gostring) (typ : gostring) (rest : list gostring) :
  input w = rejected ++ typ :: rest ->
  Forall (fun line => validType c line = false) rejected ->
  validType c typ = true ->
  exists w',
    promptType c w = Done typ w'
    /\ input w' = rest
    /\ stderr w' = stderr w ++ concat (map (rejectionDiag c) rejected)
    /\ files w' = files w /\ clock w' = clock w.
Proof.
  unfold promptType. generalize (input w). intros inp ->. revert w.
  induction rejected as [|line rejected IH]; intros w Hrej Hok.
  - cbn [app]. rewrite typeLoop_accepts by done. eexists. split; [reflexivity|].
    simpl. by rewrite app_nil_r.
  - apply Forall_cons in Hrej as [Hline Hrej]. cbn [app].
    destruct (typeLoop_rejects c line (rejected ++ typ :: rest) w Hline)
      as (w1 & -> & _ & Herr & Hfiles & Hclock).
    destruct (IH w1 Hrej Hok) as (w' & -> & Hin & Herr' & Hfiles' & Hclock').
    exists w'. split; [done|]. split; [done|].
    rewrite Herr', Herr, Hfiles', Hfiles, Hclock', Hclock. by rewrite <- app_assoc.
Qed.

Lemma promptType_first_valid_line_witness :
  exists w',
    promptType (mkCmd strictRule [] ∅) (quietWorld [[]; str "wip"; str "fix"; str "x"] 0)
    = Done (str "fix") w'
    /\ input w' = [str "x"]
    /\ stderr w' = [TypeRequired; AdlibNotAllowed].
Proof.
  destruct (promptType_first_valid_line (mkCmd strictRule [] ∅)
              (quietWorld [[]; str "wip"; str "fix"; str "x"] 0)
              [[]; str "wip"] (str "fix") [str "x"])
    as (w' & Hrun & Hin & Herr & _);
    [reflexivity | by repeat constructor | reflexivity |].
  by exists w'.
Defined.

(** X6: on a command that has a rule, [promptType] waits for ever
    exactly when no submitted line passes the two checks; when some line
    does, it returns a type. *)
Theorem promptType_blocks_iff_no_valid_line (c : globalCmd) (w : World) :
  (promptType c w = Blocked
   <-> Forall (fun line => validType c line = false) (input w))
  /\ ((exists typ w', promptType c w = Done typ w')
      <-> Exists (fun line => validType c line = true) (input w)).
Proof.
  unfold promptType. generalize (input w). intros inp. revert w.
  induction inp as [|line inp IH]; intros w.
  - split; [split; [by constructor | done]|].
    split; [by intros (? & ? & ?) | by intros ?%Exists_nil].
  - destruct (validType c line) eqn:Hv.
    + rewrite typeLoop_accepts by done. split.
      * split; [done|]. intros [H _]%Forall_cons. congruence.
      * split; [by intros _; apply Exists_cons_hd | by eauto].
    + destruct (typeLoop_rejects c line inp w Hv) as (w1 & -> & _).
      destruct (IH w1) as [Hb Hd]. split.
      * rewrite Hb. split; [by constructor | by intros [_ ?]%Forall_cons].
      * rewrite Hd. split; [by apply Exists_cons_tl|].
        intros [?|?]%Exists_cons; [congruence | done].
Qed.

(** A run of non-blank lines is appended line by line, whatever follows
    it. *)
Lemma bodyLoop_run lines tail prev body :
  Forall (fun l => TrimSpace l <> []) lines ->
  bodyLoop (lines ++ tail) prev body
  = bodyLoop tail (match lines with [] => prev | _ :: _ => false end)
      (foldl appendLine body (map TrimSpace lines)).
Proof.
  revert prev body. induction lines as [|l lines IH]; intros prev body Hall; [done|].
  apply Forall_cons in Hall as [Hl Hall].
  change ((l :: lines) ++ tail) with (l :: (lines ++ tail)).
  cbn [bodyLoop]. rewrite (proj2 (is_empty_false _) Hl), IH by done.
  by destruct lines.
Qed.

Lemma foldl_appendLine body xs :
  body <> [] ->
  foldl appendLine body xs = body ++ concat (map (fun x => LF ++ x) xs).
Proof.
  revert body. induction xs as [|x xs IH]; intros body Hbody; simpl.
  - by rewrite app_nil_r.
  - rewrite IH by (unfold appendLine; by destruct body).
    unfold appendLine. rewrite (proj2 (is_empty_false _) Hbody). cbn [negb].
    by rewrite <- !app_assoc.
Qed.

Lemma foldl_appendLine_join xs :
  xs <> [] -> Forall (fun x => x <> []) xs -> foldl appendLine [] xs = joinLines xs.
Proof.
  intros Hne Hall. destruct xs as [|x xs]; [done|].
  apply Forall_cons in Hall as [Hx _]. cbn [foldl].
  change (appendLine [] x) with x. by rewrite foldl_appendLine, joinLines_cons.
Qed.

(** X7: a single blank line between non-blank lines does not end the
    body: it is kept as an empty line, so that two paragraphs come out
    separated by a blank line; the body ends at the two blank lines in a
    row, with one newline after its last line. *)
Theorem promptBody_keeps_single_blank_lines (p1 p2 rest : list gostring) :
  p1 <> [] -> p2 <> [] ->
  Forall (fun l => TrimSpace l <> []) p1 ->
  Forall (fun l => TrimSpace l <> []) p2 ->
  bodyLoop (p1 ++ [] :: p2 ++ [] :: [] :: rest) false []
  = (joinLines (map TrimSpace p1) ++ LF ++ LF ++ joinLines (map TrimSpace p2) ++ LF,
     rest).
Proof.
  intros Hp1 Hp2 Hall1 Hall2.
  assert (Hj1 : foldl appendLine [] (map TrimSpace p1) = joinLines (map TrimSpace p1)).
  { apply foldl_appendLine_join; [by destruct p1 | by apply Forall_fmap]. }
  assert (Hne1 : joinLines (map TrimSpace p1) <> []).
  { destruct p1 as [|l p1]; [done|]. apply Forall_cons in Hall1 as [Hl _].
    change (map TrimSpace (l :: p1)) with (TrimSpace l :: map TrimSpace p1).
    rewrite joinLines_cons. by destruct (TrimSpace l). }
  rewrite bodyLoop_run, Hj1 by done.
  destruct p1 as [|l1 p1]; [done|].
  cbn [bodyLoop]. change (TrimSpace []) with (@nil N). cbn [is_empty].
  rewrite bodyLoop_run by done.
  destruct p2 as [|l2 p2]; [done|].
  cbn [bodyLoop]. change (TrimSpace []) with (@nil N). cbn [is_empty].
  f_equal. apply Forall_cons in Hall2 as [Hl2 Hall2].
  change (map TrimSpace (l2 :: p2)) with (TrimSpace l2 :: map TrimSpace p2).
  rewrite joinLines_cons.
  set (B1 := joinLines (map TrimSpace (l1 :: p1))) in *.
  assert (Hsep : appendLine B1 [] = B1 ++ LF).
  { unfold appendLine. rewrite (proj2 (is_empty_false _) Hne1). cbn [negb].
    by rewrite app_nil_r. }
  assert (Hsne : B1 ++ LF <> []) by (by destruct B1).
  rewrite Hsep. cbn [foldl].
  assert (Hl : appendLine (B1 ++ LF) (TrimSpace l2) = B1 ++ LF ++ LF ++ TrimSpace l2).
  { unfold appendLine. rewrite (proj2 (is_empty_false _) Hsne). cbn [negb].
    by rewrite <- !app_assoc. }
  rewrite Hl.
  assert (Hlne : B1 ++ LF ++ LF ++ TrimSpace l2 <> []) by (by destruct B1).
  rewrite foldl_appendLine by done.
  unfold appendLine.
  match goal with |- context [is_empty ?x] =>
    assert (Hx : is_empty x = false) by (by destruct B1); rewrite Hx
  end.
  cbn [negb]. rewrite app_nil_r. by rewrite <- !app_assoc.
Qed.

Lemma promptBody_keeps_single_blank_lines_witness :
  bodyLoop ([str "why"] ++ [] :: [str " how "; str "more"] ++ [] :: [] :: [str "next"])
    false []
  = (joinLines (map TrimSpace [str "why"]) ++ LF ++ LF
     ++ joinLines (map TrimSpace [str " how "; str "more"]) ++ LF,
     [str "next"]).
Proof.
  apply (promptBody_keeps_single_blank_lines [str "why"] [str " how "; str "more"]
           [str "next"]);
    [discriminate | discriminate | by repeat constructor | by repeat constructor].
Defined.

(** X8: when the input ends before two blank lines in a row were read
    and every line read is non-blank, the body is the trimmed lines joined
    by newlines, without a newline after the last. *)
Theorem promptBody_until_end_of_input (lines : list gostring) :
  Forall (fun l => TrimSpace l <> []) lines ->
  bodyLoop lines false [] = (joinLines (map TrimSpace lines), []).
Proof.
  intros Hall. destruct lines as [|l lines]; [done|].
  apply Forall_cons in Hall as [Hl Hall].
  cbn [bodyLoop]. rewrite (proj2 (is_empty_false _) Hl).
  change (appendLine [] (TrimSpace l)) with (TrimSpace l).
  change (map TrimSpace (l :: lines)) with (TrimSpace l :: map TrimSpace lines).
  rewrite joinLines_cons.
  assert (Hgen : forall body, body <> [] ->
    bodyLoop lines false body
    = (body ++ concat (map (fun x => LF ++ x) (map TrimSpace lines)), [])).
  { clear Hl. induction lines as [|l' lines IH]; intros body Hbody.
    - simpl. by rewrite app_nil_r.
    - apply Forall_cons in Hall as [Hl' Hall].
      cbn [bodyLoop]. rewrite (proj2 (is_empty_false _) Hl').
      rewrite IH; [|done | by unfold appendLine; destruct body].
      unfold appendLine. rewrite (proj2 (is_empty_false _) Hbody).
      cbn [negb map concat]. by rewrite <- !app_assoc. }
  by apply Hgen.
Qed.

Lemma promptBody_until_end_of_input_witness :
  bodyLoop [str "one "; str " two"] false []
  = (joinLines (map TrimSpace [str "one "; str " two"]), []).
Proof.
  apply (promptBody_until_end_of_input [str "one "; str " two"]).
  by repeat constructor.
Defined.

Section Items.
Variable Emojize : gostring -> gostring.

Lemma typeItemsLoop_sublist c keys :
  sublist (map Text (typeItemsLoop Emojize c keys)) keys.
Proof.
  induction keys as [|k keys IH]; cbn [typeItemsLoop]; [constructor|].
  destruct (HasPrefix k (str "#")); [by constructor|].
  destruct (om_Get (Types (rule c)) k) as [ct|]; [|by constructor].
  destruct (is_empty (Desc ct)); [by constructor|].
  cbn [map Text]. by constructor.
Qed.

(** X9: the suggestions of [promptType] follow the order of the registry:
    their texts are the keys of the registry with some left out, none
    moved, and each description is the emoji, a space and the description
    of the type. *)
Theorem typeItems_in_registry_order (c : globalCmd) :
  sublist (map Text (typeItems Emojize c)) (om_Keys (Types (rule c)))
  /\ forall sg, sg ∈ typeItems Emojize c ->
       exists ct, om_Get (Types (rule c)) (Text sg) = Some ct
         /\ Description sg = emojiOf Emojize c (Text sg) true ++ str " " ++ Desc ct.
Proof.
  split; [apply typeItemsLoop_sublist|].
  unfold typeItems. generalize (om_Keys (Types (rule c))). intros keys sg.
  induction keys as [|k keys IH]; cbn [typeItemsLoop]; [by intros ?%elem_of_nil|].
  destruct (HasPrefix k (str "#")); [done|].
  destruct (om_Get (Types (rule c)) k) as [ct|] eqn:Hget; [|done].
  destruct (is_empty (Desc ct)); [done|].
  intros [->|H]%elem_of_cons; [|by apply IH]. by exists ct.
Qed.
End Items.
End PromptLaws.

(** ** The git configuration and the rule file *)
Module ConfigLaws.
Import Config Composer Instances Examples PromptFacts.

Lemma lastCx_snoc sections s :
  lastCx (sections ++ [s])
  = if decide (Name s = configSection) then Some s else lastCx sections.
Proof. unfold lastCx. by rewrite foldl_app. Qed.

Lemma lastCx_Some sections s :
  lastCx sections = Some s
  <-> exists pre post,
        sections = pre ++ s :: post /\ Name s = configSection
        /\ Forall (fun s' => Name s' <> configSection) post.
Proof.
  revert s. induction sections as [|s0 sections IH] using rev_ind; intros s.
  - split; [done|]. intros (pre & post & H & _). by destruct pre.
  - rewrite lastCx_snoc. destruct (decide (Name s0 = configSection)) as [Hcx|Hcx].
    + split.
      * intros [= ->]. exists sections, []. by repeat split.
      * intros (pre & post & Heq & Hs & Hpost).
        destruct post as [|p post _] using rev_ind.
        -- apply app_inj_tail in Heq as [_ ->]. done.
        -- rewrite app_comm_cons, app_assoc in Heq.
           apply app_inj_tail in Heq as [_ ->].
           apply Forall_app in Hpost as [_ Hp]. apply Forall_inv in Hp.
           congruence.
    + rewrite IH. split.
      * intros (pre & post & -> & Hs & Hpost). exists pre, (post ++ [s0]).
        split; [by rewrite <- app_assoc|]. split; [done|].
        apply Forall_app. by split; [|apply Forall_singleton].
      * intros (pre & post & Heq & Hs & Hpost).
        destruct post as [|p post _] using rev_ind.
        -- apply app_inj_tail in Heq as [_ ->]. done.
        -- rewrite app_comm_cons, app_assoc in Heq.
           apply app_inj_tail in Heq as [-> ->].
           apply Forall_app in Hpost as [Hpost _]. by exists pre, post.
Qed.

Section GitConfig.
Variable Options_Get : list (gostring * gostring) -> gostring -> gostring.

(** X10: [getGitConfig] answers with the value the last section named
    [cx] has for the key, and only when that value is not empty: sections
    named [cx] before it are not looked at, even when they set the key. *)
Theorem getGitConfig_last_section (repos : Repository) (key v : gostring) :
  getGitConfig Options_Get repos key = Some v
  <-> exists pre s post,
        RawSections repos = Some (pre ++ s :: post)
        /\ Name s = configSection
        /\ Forall (fun s' => Name s' <> configSection) post
        /\ Options_Get (Options s) key = v /\ v <> [].
Proof.
  unfold getGitConfig. destruct (RawSections repos) as [sections|].
  - fold (lastCx sections). split.
    + destruct (lastCx sections) as [s|] eqn:Hlast; [|done].
      apply lastCx_Some in Hlast as (pre & post & -> & Hs & Hpost).
      destruct (is_empty (Options_Get (Options s) key)) eqn:He; [done|].
      intros [= <-]. exists pre, s, post. repeat split; try done.
      by apply is_empty_false.
    + intros (pre & s & post & [= ->] & Hs & Hpost & <- & Hv).
      assert (Hlast : lastCx (pre ++ s :: post) = Some s).
      { apply lastCx_Some. by exists pre, post. }
      rewrite Hlast. by rewrite (proj2 (is_empty_false _) Hv).
  - split; [done|]. by intros (pre & s & post & H & _).
Qed.
End GitConfig.

Section RuleFile.
Variable EqualFold : gostring -> gostring -> bool.
Variable yaml_Unmarshal_Rule : gostring -> Rule -> Rule * option error.
Variable json_Unmarshal_Rule : gostring -> Rule -> Rule * option error.
Variable yaml_Unmarshal_Scopes : gostring -> Scopes -> Scopes * option error.
Variable json_Unmarshal_Scopes : gostring -> Scopes -> Scopes * option error.
Variable fs : gostring -> FileState.
Variable Options_Get : list (gostring * gostring) -> gostring -> gostring.
Variable filepath_Join : gostring -> gostring -> gostring.
Variable findcfg_Find : Finder -> option Found.
Variable findcfg_FallbackPath : Finder -> gostring.

Let tryRule := tryReadRuleFile EqualFold yaml_Unmarshal_Rule json_Unmarshal_Rule fs.
Let readRule :=
  readRuleFile EqualFold yaml_Unmarshal_Rule json_Unmarshal_Rule fs
    Options_Get filepath_Join findcfg_Find findcfg_FallbackPath.
Let prepare_ :=
  prepare EqualFold yaml_Unmarshal_Rule json_Unmarshal_Rule
    yaml_Unmarshal_Scopes json_Unmarshal_Scopes fs
    Options_Get filepath_Join findcfg_Find findcfg_FallbackPath.

(** A reader gives a rule, or an error, or neither; neither only for a
    directory. *)
Lemma tryReadRuleFile_shape filename :
  (exists r, tryRule filename = (Some r, None))
  \/ (exists e, tryRule filename = (None, Some e))
  \/ (tryRule filename = (None, None) /\ fs filename = IsDir).
Proof.
  unfold tryRule, tryReadRuleFile.
  destruct (fs filename) as [e| |e|e|content];
    [right; left; by eexists | by right; right
    | right; left; by eexists | right; left; by eexists |].
  destruct (in_ EqualFold (Ext filename) [str ".yaml"; str ".yml"]).
  { destruct (yaml_Unmarshal_Rule content zeroRule) as [r [e|]];
      [right; left | left]; by eexists. }
  destruct (in_ EqualFold (Ext filename) [str ".json"]).
  { destruct (json_Unmarshal_Rule content zeroRule) as [r [e|]];
      [right; left | left]; by eexists. }
  destruct (yaml_Unmarshal_Rule content zeroRule) as [r [e|]]; [|left; by eexists].
  destruct (json_Unmarshal_Rule content r) as [r' [e'|]];
    [right; left | left]; by eexists.
Qed.

(** X11: [readRuleFile] hands back a nil rule exactly when the path the
    finder found is a directory; [prepare] then has no rule for the
    prompts. In every other case there is a rule: the decoded one, or the
    built-in one. *)
Theorem readRuleFile_nil_iff_directory (repos : Repository) :
  (fst (readRule repos) = None
   <-> exists found,
         findcfg_Find (ruleFinder Options_Get filepath_Join repos) = Some found
         /\ fs (Path found) = IsDir)
  /\ (prepare_ repos = None <-> fst (readRule repos) = None).
Proof.
  split.
  - unfold readRule, readRuleFile.
    destruct (findcfg_Find (ruleFinder Options_Get filepath_Join repos))
      as [found|]; [|split; [done | by intros [? [? _]]]].
    fold tryRule.
    destruct (tryReadRuleFile_shape (Path found))
      as [[r Hr] | [[e He] | [Hn Hdir]]].
    + rewrite Hr. split; [done|]. intros (found' & [= <-] & Hdir).
      unfold tryRule, tryReadRuleFile in Hr. by rewrite Hdir in Hr.
    + rewrite He. split; [done|]. intros (found' & [= <-] & Hdir).
      unfold tryRule, tryReadRuleFile in He. by rewrite Hdir in He.
    + rewrite Hn. split; [|done]. intros _. by exists found.
  - unfold prepare_, prepare. fold readRule.
    destruct (readRule repos) as [[r|] path]; simpl;
      destruct (readScopesFile _ _ _ _ _ _ _ _ repos) as [[sc|] name]; done.
Qed.
End RuleFile.
End ConfigLaws.

(** ** Writing the scope history: failures, format and content *)
Module WriteBackLaws.
Import Config Composer Instances Examples PromptFacts ScopesFacts.

Section Effects.
Variable EqualFold : gostring -> gostring -> bool.
Variable range_Scopes : Scopes -> list (gostring * Time).
Variable sort_Slice : list tmpscope -> (tmpscope -> tmpscope -> bool) -> list tmpscope.

Let writeBack := writeBackScopes EqualFold range_Scopes sort_Slice.

(** What a run of the block does to the world, whatever the iteration
    order and the sort. *)
Lemma writeBackScopes_effects c scope w :
  scope <> [] -> scopesFileName c <> [] ->
  create_fails w (scopesFileName c) = false ->
  exists fw w',
    writeBack c scope w = Done tt w'
    /\ files w' = files w ++ [fw]
    /\ target fw = scopesFileName c
    /\ encoder fw = (if in_ EqualFold (Ext (scopesFileName c)) [str ".json"]
                     then JSON else YAML)
    /\ stderr w' = stderr w ++ match write_fails w (scopesFileName c) with
                               | Some err => [WriteScopesWarning err]
                               | None => []
                               end
    /\ input w' = input w.
Proof.
  intros Hscope Hfile Hcreate. unfold writeBack, writeBackScopes.
  apply is_empty_false in Hscope as ->. apply is_empty_false in Hfile as ->.
  cbn [negb andb]. unfold bind, time_Now, writeScopes. rewrite Hcreate.
  match goal with |- context [fwrite ?f w] => set (fw := f) end.
  exists fw. change (write_fails (fwrite fw w)) with (write_fails w).
  destruct (write_fails w (scopesFileName c)) as [err|];
    eexists; (split; [reflexivity|]); simpl; by rewrite ?app_nil_r.
Qed.

(** X12: a failure to write the scope history never stops the run: when
    the file cannot be created nothing is written and nothing is printed,
    and when the write fails one warning is printed; in both cases the
    block returns and the input is untouched. *)
Theorem scope_history_failures_are_not_fatal (c : globalCmd) (scope : gostring)
    (w : World) :
  scope <> [] -> scopesFileName c <> [] ->
  (create_fails w (scopesFileName c) = true -> writeBack c scope w = Done tt w)
  /\ (create_fails w (scopesFileName c) = false ->
      exists w',
        writeBack c scope w = Done tt w'
        /\ stderr w' = stderr w ++ match write_fails w (scopesFileName c) with
                                   | Some err => [WriteScopesWarning err]
                                   | None => []
                                   end
        /\ input w' = input w).
Proof.
  intros Hscope Hfile. split.
  - intros Hcreate. unfold writeBack, writeBackScopes.
    apply is_empty_false in Hscope as ->. apply is_empty_false in Hfile as ->.
    cbn [negb andb]. unfold bind, time_Now, writeScopes. by rewrite Hcreate.
  - intros Hcreate.
    destruct (writeBackScopes_effects c scope w Hscope Hfile Hcreate)
      as (fw & w' & Hrun & _ & _ & _ & Herr & Hin).
    by exists w'.
Qed.

Section Format.
Variable yaml_Unmarshal_Scopes : gostring -> Scopes -> Scopes * option error.
Variable json_Unmarshal_Scopes : gostring -> Scopes -> Scopes * option error.
Variable fs : gostring -> FileState.

(** X13: reading and writing do not agree on a file whose extension is
    neither [.yaml], [.yml] nor [.json]: a content that only the JSON
    decoder accepts is read, and the history is then written to the same
    file by the YAML encoder. *)
Theorem unknown_extension_read_as_json_written_as_yaml (c : globalCmd)
    (content : gostring) (sc0 sc : Scopes) (e : error) (scope : gostring) (w : World) :
  in_ EqualFold (Ext (scopesFileName c)) [str ".yaml"; str ".yml"] = false ->
  in_ EqualFold (Ext (scopesFileName c)) [str ".json"] = false ->
  fs (scopesFileName c) = Regular content ->
  yaml_Unmarshal_Scopes content ∅ = (sc0, Some e) ->
  json_Unmarshal_Scopes content sc0 = (sc, None) ->
  scope <> [] -> scopesFileName c <> [] ->
  create_fails w (scopesFileName c) = false ->
  tryReadScopesFile EqualFold yaml_Unmarshal_Scopes json_Unmarshal_Scopes fs
    (scopesFileName c) = (Some sc, None)
  /\ exists fw w',
       writeBack c scope w = Done tt w'
       /\ files w' = files w ++ [fw]
       /\ target fw = scopesFileName c /\ encoder fw = YAML.
Proof.
  intros Hy Hj Hfs Hyaml Hjson Hscope Hfile Hcreate. split.
  - unfold tryReadScopesFile. by rewrite Hfs, Hy, Hj, Hyaml, Hjson.
  - destruct (writeBackScopes_effects c scope w Hscope Hfile Hcreate)
      as (fw & w' & Hrun & Hfiles & Htarget & Henc & _).
    exists fw, w'. by rewrite Hj in Henc.
Qed.
End Format.

Hypothesis range_Scopes_perm : forall m : Scopes, range_Scopes m ≡ₚ map_to_list m.
Hypothesis sort_Slice_perm : forall l less, sort_Slice l less ≡ₚ l.
Hypothesis sort_Slice_sorted :
  forall l less, StrictWeak less -> SortedBy less (sort_Slice l less).

(** X14: the written history is the old one with the chosen scope set to
    the current time: one pair per scope, the chosen scope with the time
    of the run whatever it had before, every other scope with the time it
    had, and no scope added or lost. *)
Theorem written_history_updates_one_scope (c : globalCmd) (scope : gostring)
    (w : World) :
  scope <> [] -> scopesFileName c <> [] ->
  create_fails w (scopesFileName c) = false ->
  exists fw w',
    writeBack c scope w = Done tt w'
    /\ files w' = files w ++ [fw]
    /\ NoDup (map fst (entries fw))
    /\ (forall t, (scope, t) ∈ entries fw <-> t = clock w)
    /\ (forall k t, k <> scope -> (k, t) ∈ entries fw <-> scopes c !! k = Some t).
Proof.
  intros Hscope Hfile Hcreate.
  destruct (writeBackScopes_writes EqualFold range_Scopes sort_Slice
              range_Scopes_perm sort_Slice_perm sort_Slice_sorted c scope w
              Hscope Hfile Hcreate)
    as (fw & w' & Hrun & Hfiles & _ & Hperm & _).
  exists fw, w'. repeat (split; [done|]). split; [|split].
  - rewrite Hperm. apply NoDup_fst_map_to_list.
  - intros t. rewrite Hperm, elem_of_map_to_list, lookup_insert_eq.
    split; [by intros [= <-] | by intros ->].
  - intros k t Hk. rewrite Hperm, elem_of_map_to_list.
    by rewrite lookup_insert_ne.
Qed.
End Effects.

Lemma unknown_extension_read_as_json_written_as_yaml_witness :
  exists fw w',
    writeBackScopes asciiEqualFold keyOrder mergeSlice
      {| rule := defaultRule false; scopesFileName := str "/repo/.scope-history";
         scopes := {[ str "{x" := 0%Z ]} |}
      (str "hoge") (quietWorld [] 100) = Done tt w'
    /\ files w' = files (quietWorld [] 100) ++ [fw]
    /\ target fw = str "/repo/.scope-history" /\ encoder fw = YAML.
Proof.
  eapply (unknown_extension_read_as_json_written_as_yaml asciiEqualFold keyOrder
            mergeSlice toyYamlScopes toyJsonScopes (fun _ => Regular (str "{x"))
            {| rule := defaultRule false; scopesFileName := str "/repo/.scope-history";
               scopes := {[ str "{x" := 0%Z ]} |}
            (str "{x") ∅ {[ str "{x" := 0%Z ]}
            (str "yaml: did not find expected key") (str "hoge") (quietWorld [] 100));
    try reflexivity; discriminate.
Defined.

Lemma scope_history_failures_are_not_fatal_witness :
  writeBackScopes asciiEqualFold keyOrder mergeSlice twoScopes (str "hoge")
    {| input := []; clock := 100%Z; create_fails := fun _ => true;
       write_fails := fun _ => None; stderr := []; files := [] |}
  = Done tt {| input := []; clock := 100%Z; create_fails := fun _ => true;
               write_fails := fun _ => None; stderr := []; files := [] |}.
Proof.
  apply (scope_history_failures_are_not_fatal asciiEqualFold keyOrder mergeSlice
           twoScopes (str "hoge")
           {| input := []; clock := 100%Z; create_fails := fun _ => true;
              write_fails := fun _ => None; stderr := []; files := [] |});
    [discriminate | discriminate | reflexivity].
Defined.

Lemma written_history_updates_one_scope_witness :
  exists fw w',
    writeBackScopes asciiEqualFold keyOrder mergeSlice twoScopes (str "old")
      (quietWorld [] 100) = Done tt w'
    /\ files w' = files (quietWorld [] 100) ++ [fw]
    /\ NoDup (map fst (entries fw))
    /\ (forall t, (str "old", t) ∈ entries fw <-> t = 100%Z)
    /\ (forall k t, k <> str "old" ->
          (k, t) ∈ entries fw <-> scopes twoScopes !! k = Some t).
Proof.
  apply (written_history_updates_one_scope asciiEqualFold keyOrder mergeSlice
           (fun m => reflexivity (map_to_list m)) mergeSlice_perm mergeSlice_sorted
           twoScopes (str "old") (quietWorld [] 100));
    [discriminate | discriminate | reflexivity].
Defined.
End WriteBackLaws.

(** ** A run without a scope history *)
Module FallbackLaws.
Import Config Composer Instances Examples PromptFacts ScopesFacts.

Section Fallback.
Variable EqualFold : gostring -> gostring -> bool.
Variable yaml_Unmarshal_Rule : gostring -> Rule -> Rule * option error.
Variable json_Unmarshal_Rule : gostring -> Rule -> Rule * option error.
Variable yaml_Unmarshal_Scopes : gostring -> Scopes -> Scopes * option error.
Variable json_Unmarshal_Scopes : gostring -> Scopes -> Scopes * option error.
Variable fs : gostring -> FileState.
Variable Options_Get : list (gostring * gostring) -> gostring -> gostring.
Variable filepath_Join : gostring -> gostring -> gostring.
Variable findcfg_Find : Finder -> option Found.
Variable findcfg_FallbackPath : Finder -> gostring.
Variable range_Scopes : Scopes -> list (gostring * Time).
Variable sort_Slice : list tmpscope -> (tmpscope -> tmpscope -> bool) -> list tmpscope.

Hypothesis range_Scopes_perm : forall m : Scopes, range_Scopes m ≡ₚ map_to_list m.
Hypothesis sort_Slice_perm : forall l less, sort_Slice l less ≡ₚ l.
Hypothesis sort_Slice_sorted :
  forall l less, StrictWeak less -> SortedBy less (sort_Slice l less).

Let readScopes :=
  readScopesFile EqualFold yaml_Unmarshal_Scopes json_Unmarshal_Scopes fs
    Options_Get filepath_Join findcfg_Find findcfg_FallbackPath.
Let prepare_ :=
  prepare EqualFold yaml_Unmarshal_Rule json_Unmarshal_Rule
    yaml_Unmarshal_Scopes json_Unmarshal_Scopes fs
    Options_Get filepath_Join findcfg_Find findcfg_FallbackPath.
Let writeBack := writeBackScopes EqualFold range_Scopes sort_Slice.

(** X15: when the finder finds no scope history, or finds one that
    cannot be read, the run starts from the empty history with the
    finder's fallback path as its file name: a non-empty chosen scope then
    creates a history at the fallback path, holding that scope alone. *)
Theorem missing_history_is_created_at_fallback_path (repos : Repository)
    (c : globalCmd) (scope : gostring) (w : World) :
  findcfg_Find (scopesFinder Options_Get filepath_Join repos) = None
  \/ (exists found,
        findcfg_Find (scopesFinder Options_Get filepath_Join repos) = Some found
        /\ is_Some (snd (tryReadScopesFile EqualFold yaml_Unmarshal_Scopes
                           json_Unmarshal_Scopes fs (Path found)))) ->
  prepare_ repos = Some c ->
  scope <> [] ->
  let fallback := findcfg_FallbackPath (scopesFinder Options_Get filepath_Join repos) in
  fallback <> [] ->
  create_fails w fallback = false ->
  scopes c = ∅ /\ scopesFileName c = fallback
  /\ exists fw w',
       writeBack c scope w = Done tt w'
       /\ files w' = files w ++ [fw]
       /\ target fw = fallback
       /\ entries fw = [(scope, clock w)].
Proof.
  intros Hfind Hprep Hscope fallback Hfb Hcreate.
  assert (Hc : scopes c = ∅ /\ scopesFileName c = fallback).
  { assert (Hread : readScopes repos = (None, fallback)).
    { unfold readScopes, readScopesFile.
      destruct Hfind as [-> | (found & -> & [e He])]; [done|].
      destruct (tryReadScopesFile _ _ _ _ (Path found)) as [sc oe].
      simpl in He. by subst. }
    unfold prepare_, prepare in Hprep. fold readScopes in Hprep.
    rewrite Hread in Hprep.
    destruct (readRuleFile _ _ _ _ _ _ _ _ repos) as [[r|] ?]; [|done].
    by inversion Hprep. }
  destruct Hc as [Hsc Hname]. repeat (split; [done|]).
  destruct (writeBackScopes_writes EqualFold range_Scopes sort_Slice
              range_Scopes_perm sort_Slice_perm sort_Slice_sorted c scope w)
    as (fw & w' & Hrun & Hfiles & Htarget & Hperm & _);
    [done | congruence | congruence |].
  exists fw, w'. split; [exact Hrun|]. split; [done|]. split; [congruence|].
  rewrite Hsc, insert_empty, map_to_list_singleton in Hperm.
  by apply Permutation_singleton_r in Hperm.
Qed.
End Fallback.

Lemma missing_history_is_created_at_fallback_path_witness :
  exists fw w',
    writeBackScopes asciiEqualFold keyOrder mergeSlice
      {| rule := defaultRule false; scopesFileName := str "/usr/bin/.scope-history";
         scopes := ∅ |}
      (str "hoge") (quietWorld [] 100) = Done tt w'
    /\ files w' = files (quietWorld [] 100) ++ [fw]
    /\ target fw = str "/usr/bin/.scope-history"
    /\ entries fw = [(str "hoge", 100%Z)].
Proof.
  eapply (missing_history_is_created_at_fallback_path asciiEqualFold
            (fun _ r => (defaultRule false, None)) toyJsonRule
            toyYamlScopes toyJsonScopes oneScopeFs firstOption slashJoin
            (fun _ => None) exeFallback keyOrder mergeSlice
            (fun m => reflexivity (map_to_list m)) mergeSlice_perm mergeSlice_sorted
            plainRepo
            {| rule := defaultRule false;
               scopesFileName := str "/usr/bin/.scope-history"; scopes := ∅ |}
            (str "hoge") (quietWorld [] 100));
    [by left | reflexivity | discriminate | discriminate | reflexivity].
Defined.
End FallbackLaws.

(** ** The header after a failed execution, and a whole run *)
Module MessageLaws.
Import Config Composer Instances Examples PromptFacts MessageFacts PromptLaws.

Section Message.
Variable Emojize : gostring -> gostring.
Variable EqualFold : gostring -> gostring -> bool.
Variable Template : Type.
Variable template_Parse : gostring -> Template + error.
Variable template_Execute : Template -> Fields -> gostring * option error.
Variable range_Scopes : Scopes -> list (gostring * Time).
Variable sort_Slice : list tmpscope -> (tmpscope -> tmpscope -> bool) -> list tmpscope.

Let build := buildHeader Emojize Template template_Parse template_Execute.
Let buildup :=
  buildupCommitMessage Emojize EqualFold Template template_Parse template_Execute
    range_Scopes sort_Slice.

(** X16: when the header format parses and its execution fails, the
    header is what the execution had written, followed by the type, the
    scope in parentheses, the bang, a colon and a space, and the
    description; the emoji is not part of it, and the error is printed
    with the header format. *)
Theorem failed_execution_falls_back_without_emoji (c : globalCmd)
    (typ scope desc breakingChange : gostring) (w : World) (t : Template)
    (buf : gostring) (err : error) :
  template_Parse (HeaderFormat (rule c)) = inl t ->
  template_Execute t (headerData Emojize c typ scope desc breakingChange)
  = (buf, Some err) ->
  build c typ scope desc breakingChange w
  = Done (buf ++ typ
          ++ (if is_empty scope then [] else str "(" ++ scope ++ str ")")
          ++ (if is_empty breakingChange then [] else str "!")
          ++ str ": " ++ desc)
      (eprint (TemplateError err (HeaderFormat (rule c))) w).
Proof.
  intros Ht Hex.
  destruct (buildHeader_parsed Emojize Template template_Parse template_Execute
              c typ scope desc breakingChange w t Ht) as (w' & Hrun & Hw').
  unfold build. rewrite Hrun, Hw'. unfold renderedHeader. rewrite Hex.
  cbn [snd headerData f_type f_scope_with_parens f_bang f_description].
  by destruct (is_empty scope), (is_empty breakingChange).
Qed.

Lemma writeBackScopes_keeps_input c scope w w' :
  writeBackScopes EqualFold range_Scopes sort_Slice c scope w = Done tt w' ->
  input w' = input w.
Proof.
  unfold writeBackScopes.
  destruct (negb (is_empty scope) && negb (is_empty (scopesFileName c)));
    [|by intros [= <-]].
  unfold bind, time_Now, writeScopes.
  destruct (create_fails w (scopesFileName c)); [by intros [= <-]|].
  match goal with |- context [write_fails ?w0 ?f] => destruct (write_fails w0 f) end;
    by intros [= <-].
Qed.

Lemma promptDesc_line c w line rest :
  input w = line :: rest ->
  exists w', promptDesc c w = Done (TrimSpace line) w' /\ input w' = rest.
Proof.
  intros Hin. unfold promptDesc, bind, prompt_Input. rewrite Hin.
  destruct (is_empty (TrimSpace line)); by eexists.
Qed.

(** X17: a run reads the type, the scope, the description, the body up to
    two blank lines and the breaking change in this order, one after the
    other from the same input, and leaves what follows unread; its message
    is the header for these values, a blank line, the body lines joined, a
    newline, and the footer when the breaking change is not blank. *)
Theorem run_reads_the_prompts_in_order (c : globalCmd) (w : World)
    (typ scope descLine bcLine : gostring) (bodyLines rest : list gostring)
    (t : Template) :
  UseBreakingChange (rule c) = true ->
  input w = typ :: scope :: descLine :: bodyLines ++ [] :: [] :: bcLine :: rest ->
  validType c typ = true ->
  bodyLines <> [] -> Forall (fun l => TrimSpace l <> []) bodyLines ->
  template_Parse (HeaderFormat (rule c)) = inl t ->
  let desc := TrimSpace descLine in
  let breakingChange := TrimSpace bcLine in
  exists w',
    buildup c w
    = Done (renderedHeader Template template_Execute t
              (headerData Emojize c typ scope desc breakingChange)
            ++ LF ++ LF ++ joinLines (map TrimSpace bodyLines) ++ LF
            ++ (if is_empty breakingChange then []
                else LF ++ str "BREAKING CHANGE: " ++ breakingChange)) w'
    /\ input w' = rest.
Proof.
  intros Hbc Hin Hvalid Hne Hall Ht desc breakingChange.
  subst desc breakingChange.
  unfold buildup, buildupCommitMessage, bind.
  unfold promptType. rewrite Hin, typeLoop_accepts by done.
  unfold promptScope, prompt_Input. cbn [input set_input].
  match goal with |- context [promptDesc c ?w2] =>
    destruct (promptDesc_line c w2 descLine
                (bodyLines ++ [] :: [] :: bcLine :: rest) eq_refl)
      as (w3 & -> & Hin3)
  end.
  unfold promptBody. rewrite Hin3, promptBody_trailing_newline by done.
  unfold promptBreakingChange. rewrite Hbc. unfold bind, prompt_Input, ret.
  cbn [input set_input].
  match goal with |- context [writeBackScopes _ _ _ c scope ?w5] =>
    destruct (writeBackScopes_total EqualFold range_Scopes sort_Slice c scope w5)
      as [w6 H6];
    pose proof (writeBackScopes_keeps_input c scope w5 w6 H6) as Hin6;
    rewrite H6
  end.
  destruct (buildHeader_parsed Emojize Template template_Parse template_Execute
              c typ scope (TrimSpace descLine) (TrimSpace bcLine) w6 t Ht)
    as (w7 & -> & Hw7).
  exists w7. split.
  - f_equal.
    assert (Hbody : is_empty (joinLines (map TrimSpace bodyLines) ++ LF) = false).
    { by destruct (joinLines (map TrimSpace bodyLines)). }
    rewrite Hbody. cbn [negb].
    destruct (is_empty (TrimSpace bcLine)); cbn [negb];
      rewrite ?app_nil_r, <- ?app_assoc; done.
  - rewrite Hw7.
    destruct (snd (template_Execute t (headerData Emojize c typ scope
                                         (TrimSpace descLine) (TrimSpace bcLine))));
      simpl; by rewrite Hin6.
Qed.
End Message.

Lemma run_reads_the_prompts_in_order_witness :
  exists w',
    buildupCommitMessage smallEmojize asciiEqualFold (list Piece) flatParse flatExecute
      keyOrder mergeSlice breakingCmd
      (quietWorld [str "feat"; str "hoge"; str "new feature hoge!";
                   str "dummy text"; []; []; str " removes old API "; str "left"] 0)
    = Done (str "feat(hoge)!: " ++ [10024] ++ str "new feature hoge!"
            ++ LF ++ LF ++ str "dummy text" ++ LF
            ++ LF ++ str "BREAKING CHANGE: removes old API") w'
    /\ input w' = [str "left"].
Proof.
  apply (run_reads_the_prompts_in_order smallEmojize asciiEqualFold (list Piece)
           flatParse flatExecute keyOrder mergeSlice breakingCmd
           (quietWorld [str "feat"; str "hoge"; str "new feature hoge!";
                        str "dummy text"; []; []; str " removes old API "; str "left"] 0)
           (str "feat") (str "hoge") (str "new feature hoge!") (str " removes old API ")
           [str "dummy text"] [str "left"]
           [Action (str "type"); Action (str "scope_with_parens"); Action (str "bang");
            Lit 58; Lit 32; Action (str "emoji_unicode"); Action (str "description")]);
    [reflexivity | reflexivity | reflexivity | discriminate
    | by repeat constructor | reflexivity].
Defined.

Lemma failed_execution_falls_back_without_emoji_witness :
  buildHeader smallEmojize (list Piece) flatParse flatExecute
    {| rule := {| HeaderFormat := str "<{{.type.x}}>"; HeaderFormatHint := [];
                  Types := defaultCommitTypes true;
                  DenyEmptyType := false; DenyAdlibType := false;
                  UseBreakingChange := false |};
       scopesFileName := []; scopes := ∅ |}
    (str "feat") (str "hoge") (str "new feature hoge!") [] (quietWorld [] 0)
  = Done (str "<" ++ str "feat" ++ (str "(" ++ str "hoge" ++ str ")") ++ []
          ++ str ": " ++ str "new feature hoge!")
      (eprint (TemplateError (str "template: can't evaluate field in type string")
                 (str "<{{.type.x}}>"))
         (quietWorld [] 0)).
Proof.
  apply (failed_execution_falls_back_without_emoji smallEmojize (list Piece)
           flatParse flatExecute
           {| rule := {| HeaderFormat := str "<{{.type.x}}>"; HeaderFormatHint := [];
                         Types := defaultCommitTypes true;
                         DenyEmptyType := false; DenyAdlibType := false;
                         UseBreakingChange := false |};
              scopesFileName := []; scopes := ∅ |}
           (str "feat") (str "hoge") (str "new feature hoge!") [] (quietWorld [] 0)
           [Lit 60; Action (str "type.x"); Lit 62] (str "<")
           (str "template: can't evaluate field in type string"));
    reflexivity.
Defined.
End MessageLaws.

(** ** The command: staging, the early return and the commit *)
Module RunLaws.
Import Composer Runner Instances Examples RunExamples PromptLaws.

Section Run.
Variable Emojize : gostring -> gostring.
Variable EqualFold : gostring -> gostring -> bool.
Variable Template : Type.
Variable template_Parse : gostring -> Template + error.
Variable template_Execute : Template -> Fields -> gostring * option error.
Variable range_Scopes : Scopes -> list (gostring * Time).
Variable sort_Slice : list tmpscope -> (tmpscope -> tmpscope -> bool) -> list tmpscope.
Variable yaml_Unmarshal_Rule : gostring -> Rule -> Rule * option error.
Variable json_Unmarshal_Rule : gostring -> Rule -> Rule * option error.
Variable yaml_Unmarshal_Scopes : gostring -> Scopes -> Scopes * option error.
Variable json_Unmarshal_Scopes : gostring -> Scopes -> Scopes * option error.
Variable fs : gostring -> Config.FileState.
Variable Options_Get : list (gostring * gostring) -> gostring -> gostring.
Variable filepath_Join : gostring -> gostring -> gostring.
Variable findcfg_Find : Config.Finder -> option Config.Found.
Variable findcfg_FallbackPath : Config.Finder -> gostring.
Variable git_PlainOpenWithOptions : Config.Repository + error.
Variable ErrIsBareRepository : error.
Variable os_Getwd : gostring + error.
Variable Tree : Type.
Variable wt_Status : Tree -> Status + error.
Variable wt_Add : gostring -> Tree -> Tree * option error.
Variable os_Written : list FileWrite -> Tree -> Tree.
Variable range_Status : Status -> list (gostring * FileStatus).
Variable Errorf_adding : StatusCode -> gostring -> error -> error.
Variable os_CreateTemp : gostring + error.
Variable WriteString_err : option error.
Variable exec_git_commit : Tree -> gostring -> Tree * option error.

Hypothesis range_Status_perm : forall st : Status, range_Status st ≡ₚ map_to_list st.

Let prepare_ :=
  prepare EqualFold yaml_Unmarshal_Rule json_Unmarshal_Rule
    yaml_Unmarshal_Scopes json_Unmarshal_Scopes fs
    Options_Get filepath_Join findcfg_Find findcfg_FallbackPath.
Let buildup :=
  buildupCommitMessage Emojize EqualFold Template template_Parse template_Execute
    range_Scopes sort_Slice.
Let addLoop_ := addLoop Tree wt_Add Errorf_adding.
Let Run_ :=
  Run Emojize EqualFold Template template_Parse template_Execute range_Scopes
    sort_Slice yaml_Unmarshal_Rule json_Unmarshal_Rule yaml_Unmarshal_Scopes
    json_Unmarshal_Scopes fs Options_Get filepath_Join findcfg_Find
    findcfg_FallbackPath git_PlainOpenWithOptions ErrIsBareRepository os_Getwd
    Tree wt_Status wt_Add os_Written range_Status Errorf_adding os_CreateTemp
    WriteString_err exec_git_commit.

(** The prompts create no file. *)
Lemma typeLoop_files c inp w typ w' :
  typeLoop c inp w = Done typ w' -> files w' = files w.
Proof.
  revert w. induction inp as [|line inp IH]; intros w H; [done|].
  destruct (validType c line) eqn:Hv.
  - rewrite typeLoop_accepts in H by done. by inversion H.
  - destruct (typeLoop_rejects c line inp w Hv) as (w1 & Heq & _ & _ & Hf & _).
    rewrite Heq in H. apply IH in H. congruence.
Qed.

Lemma prompt_Input_files w line w' :
  prompt_Input w = Done line w' -> files w' = files w.
Proof. unfold prompt_Input. destruct (input w); [done|]. by intros [= _ <-]. Qed.

Lemma promptDesc_files c w desc w' :
  promptDesc c w = Done desc w' -> files w' = files w.
Proof.
  unfold promptDesc, bind.
  destruct (prompt_Input w) as [line w1| |] eqn:Hin; [|done..].
  apply prompt_Input_files in Hin.
  destruct (is_empty (TrimSpace line)); unfold bind, Fprintln_Stderr, ret;
    intros [= _ <-]; done.
Qed.

Lemma promptBody_files c w body w' :
  promptBody c w = Done body w' -> files w' = files w.
Proof.
  unfold promptBody. destruct (bodyLoop (input w) false []). by intros [= _ <-].
Qed.

Lemma promptBreakingChange_files c w bc w' :
  promptBreakingChange c w = Done bc w' -> files w' = files w.
Proof.
  unfold promptBreakingChange. destruct (UseBreakingChange (rule c)).
  - unfold bind. destruct (prompt_Input w) as [line w1| |] eqn:Hin; [|done..].
    apply prompt_Input_files in Hin. unfold ret. by intros [= _ <-].
  - unfold ret. by intros [= _ <-].
Qed.

Lemma buildHeader_files c typ scope desc bc w header w' :
  buildHeader Emojize Template template_Parse template_Execute c typ scope desc bc w
  = Done header w' ->
  files w' = files w.
Proof.
  unfold buildHeader, bind, template_Must.
  destruct (template_Parse (HeaderFormat (rule c))) as [t|e]; [|done].
  unfold ret.
  destruct (template_Execute t _) as [buf [err|]].
  - unfold bind, Fprintln_Stderr, ret. by intros [= _ <-].
  - by intros [= _ <-].
Qed.

(** The block that writes the scope history creates at most one file. *)
Lemma writeBackScopes_files c scope w w' :
  writeBackScopes EqualFold range_Scopes sort_Slice c scope w = Done tt w' ->
  exists l, files w' = files w ++ l.
Proof.
  unfold writeBackScopes.
  destruct (negb (is_empty scope) && negb (is_empty (scopesFileName c)));
    [|unfold ret; intros [= <-]; exists []; by rewrite app_nil_r].
  unfold bind, time_Now, writeScopes.
  destruct (create_fails w (scopesFileName c));
    [intros [= <-]; exists []; by rewrite app_nil_r|].
  match goal with |- context [fwrite ?fw w] => set (f := fw) end.
  destruct (write_fails (fwrite f w) (scopesFileName c));
    intros [= <-]; by exists [f].
Qed.

(** The message build-up only adds to the files of the world: what it
    created is what [created] finds. *)
Lemma buildup_files cmd w msg w' :
  buildup cmd w = Done msg w' -> files w' = files w ++ created w w'.
Proof.
  intros H.
  assert (Hl : exists l, files w' = files w ++ l).
  { unfold buildup, buildupCommitMessage, bind in H.
    destruct (promptType cmd w) as [typ w1| |] eqn:H1; [|done..].
    apply typeLoop_files in H1.
    destruct (promptScope cmd w1) as [scope w2| |] eqn:H2; [|done..].
    apply prompt_Input_files in H2.
    destruct (promptDesc cmd w2) as [desc w3| |] eqn:H3; [|done..].
    apply promptDesc_files in H3.
    destruct (promptBody cmd w3) as [body w4| |] eqn:H4; [|done..].
    apply promptBody_files in H4.
    destruct (promptBreakingChange cmd w4) as [bc w5| |] eqn:H5; [|done..].
    apply promptBreakingChange_files in H5.
    destruct (writeBackScopes _ _ _ cmd scope w5) as [[] w6| |] eqn:H6; [|done..].
    apply writeBackScopes_files in H6 as [l H6].
    destruct (buildHeader _ _ _ _ cmd typ scope desc bc w6) as [header w7| |] eqn:H7;
      [|done..].
    apply buildHeader_files in H7. unfold ret in H. inversion H; subst.
    exists l. congruence. }
  destruct Hl as [l Hl]. unfold created. rewrite Hl.
  by rewrite drop_app_length.
Qed.

(** The staging loop only appends [Add] events to the log. *)
Lemma addLoop_log st tr log e tr' log' :
  addLoop_ st tr log = (e, tr', log') ->
  exists l, log' = log ++ l /\ Forall (fun ev => exists f, ev = Add f) l.
Proof.
  revert tr log. induction st as [|[f s] st IH]; intros tr log H;
    unfold addLoop_ in *; cbn [addLoop] in H.
  - inversion H; subst. exists []. by rewrite app_nil_r.
  - destruct (addCase (Worktree s)).
    + destruct (wt_Add f tr) as [tr1 [err|]].
      * inversion H; subst. exists [Add f]. split; [done|]. repeat constructor. by exists f.
      * apply IH in H as (l & -> & Hl). exists (Add f :: l).
        split; [by rewrite <- app_assoc|]. constructor; [by exists f | done].
    + by apply IH in H.
Qed.

Lemma no_commit_among_adds name (l : list Event) :
  Forall (fun ev => exists f, ev = Add f) l -> GitCommit name ∉ l.
Proof.
  intros Hl Hin. rewrite Forall_forall in Hl. by destruct (Hl _ Hin).
Qed.

(** When no [Add] fails, the loop stages the entries with a changed
    work tree status, in the order of the range. *)
Lemma addLoop_ok st tr log e tr' log' :
  (forall f t, snd (wt_Add f t) = None) ->
  addLoop_ st tr log = (e, tr', log') ->
  e = None
  /\ log' = log ++ map (fun kv => Add (fst kv))
                     (filter (fun kv => addCase (Worktree (snd kv)) = true) st).
Proof.
  intros Hadd. revert tr log.
  induction st as [|[f s] st IH]; intros tr log H; unfold addLoop_ in *;
    cbn [addLoop] in H.
  - inversion H; subst. by rewrite app_nil_r.
  - rewrite filter_cons. cbn [snd].
    destruct (addCase (Worktree s)) eqn:Hcase.
    + pose proof (Hadd f tr) as Hf. destruct (wt_Add f tr) as [tr1 [err|]]; [done|].
      apply IH in H as [-> ->]. rewrite decide_True by done.
      split; [done|]. by rewrite <- app_assoc.
    + apply IH in H as [-> ->]. by rewrite decide_False by done.
Qed.

Lemma stagedLoop_acc (st : list (gostring * FileStatus)) (acc : bool) :
  foldl (fun staged fs =>
           staged || (negb (bool_decide (Staging (snd fs) = Unmodified))
                      && negb (bool_decide (Staging (snd fs) = Untracked))))
        acc st = true
  <-> acc = true
      \/ exists f s, (f, s) ∈ st /\ Staging s <> Unmodified /\ Staging s <> Untracked.
Proof.
  revert acc. induction st as [|[f s] st IH]; intros acc; cbn [foldl].
  - split; [by left|]. intros [?|(? & ? & H & _)]; [done|]. by apply elem_of_nil in H.
  - rewrite IH. cbn [snd]. split.
    + intros [H|(f' & s' & Hin & Hs)].
      * apply orb_true_iff in H as [?|H]; [by left|]. right. exists f, s.
        apply andb_true_iff in H as [H1 H2].
        apply negb_true_iff, bool_decide_eq_false in H1, H2.
        split; [apply elem_of_cons; by left | done].
      * right. exists f', s'. split; [apply elem_of_cons; by right | done].
    + intros [->|(f' & s' & Hin & Hs1 & Hs2)]; [by left|].
      apply elem_of_cons in Hin as [Heq|Hin].
      * left. inversion Heq; subst. apply orb_true_iff. right.
        apply andb_true_iff. split; by apply negb_true_iff, bool_decide_eq_false.
      * right. by exists f', s'.
Qed.

(** [staged] is true exactly when some file of the status is staged. *)
Lemma stagedLoop_true (st : Status) :
  stagedLoop (range_Status st) = true
  <-> exists f s, st !! f = Some s /\ Staging s <> Unmodified /\ Staging s <> Untracked.
Proof.
  unfold stagedLoop. rewrite stagedLoop_acc. split.
  - intros [?|(f & s & Hin & Hs)]; [done|]. exists f, s. split; [|done].
    rewrite range_Status_perm in Hin. by apply elem_of_map_to_list in Hin.
  - intros (f & s & Hin & Hs). right. exists f, s. split; [|done].
    rewrite range_Status_perm. by apply elem_of_map_to_list.
Qed.

(** What a run with [--debug] does itself is print, and what it leaves
    is the world and the tree as the prompts left them. *)
Lemma debug_run c tr w r log :
  Debug c = true ->
  Run_ c tr w = (r, log) ->
  Forall (fun ev => match ev with
                    | StderrWd _ | StderrNoChanges | Stdout _ => True
                    | _ => False
                    end) log
  /\ forall err w' tr', r = Returned err w' tr' ->
       (w' = w /\ tr' = tr)
       \/ (err = None
           /\ exists repos cmd msg pre,
                git_PlainOpenWithOptions = inl repos
                /\ prepare_ repos = Some cmd
                /\ buildup cmd w = Done msg w'
                /\ tr' = os_Written (created w w') tr
                /\ log = pre ++ [Stdout (str "----------"); Stdout msg]).
Proof.
  intros HD HRun. unfold Run_, Run in HRun. rewrite HD in HRun.
  cbn [negb andb] in HRun.
  destruct git_PlainOpenWithOptions as [repos|err0];
    [|inversion HRun; subst; split; [done|]; intros ? ? ? [= <- <- <-]; by left].
  destruct (Config.Worktree repos) as [root|];
    [|inversion HRun; subst; split; [done|]; intros ? ? ? [= <- <- <-]; by left].
  destruct os_Getwd as [wd|err0];
    [|inversion HRun; subst; split; [done|]; intros ? ? ? [= <- <- <-]; by left].
  destruct (wt_Status tr) as [st|err0];
    [|inversion HRun; subst; split; [by repeat constructor|];
      intros ? ? ? [= <- <- <-]; by left].
  rewrite andb_false_r in HRun.
  destruct (prepare _ _ _ _ _ _ _ _ _ _ repos) as [cmd|] eqn:Hprep;
    [|inversion HRun; subst; split; [|done];
      destruct (stagedLoop _); by repeat constructor].
  destruct (buildupCommitMessage _ _ _ _ _ _ _ cmd w) as [msg w1| |] eqn:Hb;
    inversion HRun; subst;
    (split; [destruct (stagedLoop _); by repeat constructor|]); [|done..].
  intros ? ? ? [= <- <- <-]. right. split; [done|].
  eexists repos, cmd, msg, _. by repeat split.
Qed.

Ltac no_commit_in Hin Hno :=
  first [ by apply Hno in Hin
        | by apply elem_of_nil in Hin
        | apply elem_of_app in Hin as [Hin|Hin]; no_commit_in Hin Hno
        | apply elem_of_cons in Hin as [Hin|Hin];
          [discriminate | no_commit_in Hin Hno] ].

Ltac no_commit HRun Hin Hno :=
  inversion HRun; subst; exfalso; no_commit_in Hin Hno.

(** X18: [git commit] runs only in a run without [--debug], after some
    file of the status read after the staging is staged, on a temporary
    file that holds exactly the message the prompts built; the file is
    removed afterwards, and the run returns what the commit returned and
    the tree it left. Before the commit the run has done nothing but
    stage files, and that only with [--all]; the commit sees the tree
    with the files the prompts created. *)
Theorem commit_only_of_staged_changes (c : Flags) (tr : Tree) (w : World)
    (r : Result Tree) (log : list Event) (name : gostring) :
  Run_ c tr w = (r, log) ->
  GitCommit name ∈ log ->
  Debug c = false
  /\ exists repos cmd msg w' pre tr1 st f s,
       git_PlainOpenWithOptions = inl repos
       /\ ((All c = false /\ tr1 = tr /\ pre = [])
           \/ (All c = true
               /\ exists st0, wt_Status tr = inl st0
                    /\ addLoop_ (range_Status st0) tr [] = (None, tr1, pre)))
       /\ wt_Status tr1 = inl st /\ st !! f = Some s
       /\ Staging s <> Unmodified /\ Staging s <> Untracked
       /\ prepare_ repos = Some cmd
       /\ buildup cmd w = Done msg w'
       /\ r = Returned (snd (exec_git_commit (os_Written (created w w') tr1) msg)) w'
                (fst (exec_git_commit (os_Written (created w w') tr1) msg))
       /\ log = pre ++ [TempCreated name; TempWritten name msg; GitCommit name;
                        TempRemoved name]
       /\ Forall (fun ev => exists f, ev = Add f) pre.
Proof.
  intros HRun Hin.
  destruct (Debug c) eqn:HD.
  { exfalso. destruct (debug_run c tr w r log HD HRun) as [Hlog _].
    rewrite Forall_forall in Hlog. exact (Hlog _ Hin). }
  split; [done|].
  unfold Run_, Run in HRun. rewrite HD in HRun. cbn [negb andb] in HRun.
  destruct git_PlainOpenWithOptions as [repos|err0] eqn:Hopen;
    [|inversion HRun; subst; by apply elem_of_nil in Hin].
  destruct (Config.Worktree repos) as [root|];
    [|inversion HRun; subst; by apply elem_of_nil in Hin].
  destruct os_Getwd as [wd|err0];
    [|inversion HRun; subst; by apply elem_of_nil in Hin].
  remember (if All c
            then match wt_Status tr with
                 | inl st => addLoop Tree wt_Add Errorf_adding (range_Status st) tr []
                 | inr err => (Some err, tr, [])
                 end
            else (None, tr, []))
    as staging eqn:Hstaging.
  destruct staging as [[e tr1] pre].
  assert (Hshape :
    Forall (fun ev => exists f, ev = Add f) pre
    /\ (e = None ->
        (All c = false /\ tr1 = tr /\ pre = [])
        \/ (All c = true
            /\ exists st0, wt_Status tr = inl st0
                 /\ addLoop_ (range_Status st0) tr [] = (None, tr1, pre)))).
  { destruct (All c).
    - destruct (wt_Status tr) as [st0|err0].
      + symmetry in Hstaging. split.
        * apply addLoop_log in Hstaging as (l & -> & Hl). done.
        * intros ->. right. split; [done|]. by exists st0.
      + inversion Hstaging; subst. split; [done|]. done.
    - inversion Hstaging; subst. split; [done|]. intros _. by left. }
  destruct Hshape as [Hpre Hstage]. clear Hstaging.
  pose proof (no_commit_among_adds name pre Hpre) as Hno.
  cbv beta iota zeta in HRun.
  destruct e as [err0|]; [no_commit HRun Hin Hno|].
  specialize (Hstage eq_refl).
  destruct (wt_Status tr1) as [st|err0] eqn:Hst; [|no_commit HRun Hin Hno].
  destruct (stagedLoop (range_Status st)) eqn:Hstaged; cbn [negb andb] in HRun;
    [|no_commit HRun Hin Hno].
  destruct (prepare _ _ _ _ _ _ _ _ _ _ repos) as [cmd|] eqn:Hprep;
    [|no_commit HRun Hin Hno].
  destruct (buildupCommitMessage _ _ _ _ _ _ _ cmd w) as [msg w'| |] eqn:Hb;
    [|no_commit HRun Hin Hno..].
  destruct os_CreateTemp as [nm|err0]; [|no_commit HRun Hin Hno].
  destruct WriteString_err as [err0|]; [no_commit HRun Hin Hno|].
  destruct (exec_git_commit (os_Written (created w w') tr1) msg) as [tr2 err2] eqn:Hc.
  inversion HRun; subst. clear HRun.
  assert (name = nm) as ->.
  { repeat (apply elem_of_app in Hin as [Hin|Hin]);
      repeat (apply elem_of_cons in Hin as [Hin|Hin]; [congruence|]);
      first [by apply elem_of_nil in Hin | by apply Hno in Hin]. }
  apply stagedLoop_true in Hstaged as (f & s & Hs & Hs1 & Hs2).
  exists repos, cmd, msg, w', pre, tr1, st, f, s.
  split; [done|]. split; [exact Hstage|]. repeat (split; [done|]).
  split; [by rewrite Hc|].
  split; [|done]. cbn [app]. by rewrite <- !app_assoc.
Qed.

(** X19: a run with [--debug] never stages a file, never writes the
    temporary file and never commits, also when [--all] is given: all it
    does itself is print. It still runs the prompts, so it still writes
    the scope history: when it returns, the world and the tree are as
    they were, or as the files the prompts created left them. *)
Theorem debug_run_stages_and_commits_nothing (c : Flags) (tr : Tree) (w : World)
    (r : Result Tree) (log : list Event) :
  Debug c = true ->
  Run_ c tr w = (r, log) ->
  Forall (fun ev => match ev with
                    | StderrWd _ | StderrNoChanges | Stdout _ => True
                    | _ => False
                    end) log
  /\ forall err w' tr', r = Returned err w' tr' ->
       (w' = w /\ tr' = tr)
       \/ (err = None
           /\ exists repos cmd msg l,
                git_PlainOpenWithOptions = inl repos
                /\ prepare_ repos = Some cmd
                /\ buildup cmd w = Done msg w'
                /\ files w' = files w ++ l
                /\ tr' = os_Written l tr).
Proof.
  intros HD HRun. destruct (debug_run c tr w r log HD HRun) as [Hlog Hret].
  split; [done|]. intros err w' tr' Hr.
  destruct (Hret err w' tr' Hr) as [?|(-> & repos & cmd & msg & pre & Ho & Hp & Hb & -> & _)];
    [by left|].
  right. split; [done|]. exists repos, cmd, msg, (created w w').
  repeat (split; [done|]). split; [|done]. by eapply buildup_files.
Qed.

(** X20: with [--all] and without [--debug], when no [wt.Add] fails, the
    files the run stages are exactly the files of the status whose work
    tree status is Modified, Added, Deleted, Renamed, Copied or
    UpdatedButUnmerged; an untracked file is not staged. *)
Theorem all_stages_the_changed_files (c : Flags) (tr : Tree) (w : World)
    (repos : Config.Repository) (root wd : gostring) (st : Status)
    (r : Result Tree) (log : list Event) :
  Debug c = false -> All c = true ->
  git_PlainOpenWithOptions = inl repos ->
  Config.Worktree repos = Some root ->
  os_Getwd = inl wd ->
  wt_Status tr = inl st ->
  (forall f t, snd (wt_Add f t) = None) ->
  Run_ c tr w = (r, log) ->
  forall f,
    Add f ∈ log
    <-> exists s, st !! f = Some s
                  /\ Worktree s <> Unmodified /\ Worktree s <> Untracked.
Proof.
  intros HD HA Hopen Hwt Hwd Hst Hadd HRun f.
  unfold Run_, Run in HRun. rewrite Hopen, Hwt, Hwd, HD, HA, Hst in HRun.
  cbn [negb andb] in HRun.
  destruct (addLoop Tree wt_Add Errorf_adding (range_Status st) tr [])
    as [[e tr1] log1] eqn:Hloop.
  apply addLoop_ok in Hloop as [-> ->]; [|done]. cbn [app] in HRun.
  set (adds := map (fun kv : gostring * FileStatus => Add (fst kv))
                 (filter (fun kv => addCase (Worktree (snd kv)) = true)
                    (range_Status st))) in *.
  assert (Hadds : Add f ∈ adds
                  <-> exists s, st !! f = Some s
                                /\ Worktree s <> Unmodified /\ Worktree s <> Untracked).
  { unfold adds. change (map ?g ?l) with (g <$> l). rewrite list_elem_of_fmap. split.
    - intros ([f' s] & Heq & Hin). inversion Heq; subst.
      apply list_elem_of_filter in Hin as [Hcase Hin]. cbn [snd fst] in *.
      rewrite range_Status_perm in Hin. apply elem_of_map_to_list in Hin.
      exists s. split; [done|]. by destruct (Worktree s).
    - intros (s & Hs & Hw1 & Hw2). exists (f, s). split; [done|].
      apply list_elem_of_filter. split.
      + cbn [snd]. by destruct (Worktree s).
      + rewrite range_Status_perm. by apply elem_of_map_to_list. }
  rewrite <- Hadds. clear Hadds.
  cbv beta iota zeta in HRun.
  destruct (wt_Status tr1) as [st1|err0]; [|by inversion HRun].
  destruct (stagedLoop (range_Status st1)); cbn [negb andb] in HRun.
  - destruct (prepare _ _ _ _ _ _ _ _ _ _ repos) as [cmd|]; [|by inversion HRun].
    destruct (buildupCommitMessage _ _ _ _ _ _ _ cmd w) as [msg w'| |];
      [|by inversion HRun..].
    destruct os_CreateTemp as [nm|err0]; [|by inversion HRun].
    destruct WriteString_err as [err0|];
      [|destruct (exec_git_commit _ msg) as [tr2 err2]];
      inversion HRun; subst;
      rewrite !elem_of_app, !elem_of_cons, elem_of_nil; intuition discriminate.
  - inversion HRun; subst.
    rewrite !elem_of_app, !elem_of_cons, elem_of_nil; intuition discriminate.
Qed.

(** X21: without [--debug] and [--all], the run returns nil at once,
    having printed only that there are no changes, and without reading a
    line or touching the tree, exactly when every file of the status has
    the staging status Unmodified or Untracked. *)
Theorem nothing_staged_returns_without_prompting (c : Flags) (tr : Tree)
    (w : World) (repos : Config.Repository) (root wd : gostring) (st : Status) :
  Debug c = false -> All c = false ->
  git_PlainOpenWithOptions = inl repos ->
  Config.Worktree repos = Some root ->
  os_Getwd = inl wd ->
  wt_Status tr = inl st ->
  (forall f s, st !! f = Some s -> Staging s = Unmodified \/ Staging s = Untracked)
  <-> Run_ c tr w = (Returned None w tr, [StderrNoChanges]).
Proof.
  intros HD HA Hopen Hwt Hwd Hst.
  unfold Run_, Run. rewrite Hopen, Hwt, Hwd, HD, HA. cbn [negb andb].
  cbv beta iota zeta. rewrite Hst.
  destruct (stagedLoop (range_Status st)) eqn:Hstaged; cbn [negb andb app].
  - apply stagedLoop_true in Hstaged as (f & s & Hs & H1 & H2). split.
    + intros Hall. by destruct (Hall f s Hs).
    + intros HRun. exfalso.
      destruct (prepare _ _ _ _ _ _ _ _ _ _ repos) as [cmd|]; [|by inversion HRun].
      destruct (buildupCommitMessage _ _ _ _ _ _ _ cmd w) as [msg w'| |];
        [|by inversion HRun..].
      destruct os_CreateTemp as [nm|err0]; [|by inversion HRun].
      destruct WriteString_err as [err0|];
        [|destruct (exec_git_commit _ msg) as [tr2 err2]]; by inversion HRun.
  - split; [done|]. intros _ f s Hs.
    destruct (decide (Staging s = Unmodified)) as [|H1]; [by left|].
    destruct (decide (Staging s = Untracked)) as [|H2]; [by right|].
    assert (Ht : stagedLoop (range_Status st) = true)
      by (apply stagedLoop_true; by exists f, s).
    congruence.
Qed.
End Run.

Lemma commit_only_of_staged_changes_witness :
  exists msg pre,
    snd (runInRepo {| All := false; Debug := false |} oneStaged (quietWorld [str "feat"; []; str "add x"; []; []] 0))
    = pre ++ [TempCreated (str "/tmp/123"); TempWritten (str "/tmp/123") msg;
              GitCommit (str "/tmp/123"); TempRemoved (str "/tmp/123")]
    /\ Forall (fun ev => exists f, ev = Add f) pre.
Proof.
  destruct (commit_only_of_staged_changes
           smallEmojize asciiEqualFold (list Piece) flatParse flatExecute keyOrder
           mergeSlice toyYamlRule toyJsonRule toyYamlScopes toyJsonScopes oneScopeFs
           firstOption slashJoin (fun _ => None) exeFallback
           (inl plainRepo) (str "worktree not available in a bare repository")
           (inl (str "/repo/sub")) Status statusOf stageFile untracked pathOrder
           addingError (inl (str "/tmp/123")) None commitSucceeds (fun st => Permutation_refl (map_to_list st))
           {| All := false; Debug := false |} oneStaged (quietWorld [str "feat"; []; str "add x"; []; []] 0)
           (fst (runInRepo {| All := false; Debug := false |} oneStaged
                   (quietWorld [str "feat"; []; str "add x"; []; []] 0)))
           (snd (runInRepo {| All := false; Debug := false |} oneStaged
                   (quietWorld [str "feat"; []; str "add x"; []; []] 0)))
           (str "/tmp/123"))
    as (_ & repos & cmd & msg & w' & pre & tr1 & st & f & s & H).
  - apply surjective_pairing.
  - vm_compute. do 2 (apply elem_of_cons; right). apply elem_of_cons. by left.
  - exists msg, pre. split; apply H.
Defined.

Lemma debug_run_stages_and_commits_nothing_witness :
  Forall (fun ev => match ev with
                    | StderrWd _ | StderrNoChanges | Stdout _ => True
                    | _ => False
                    end)
    (snd (runWithHistory {| All := true; Debug := true |} oneChanged
            (quietWorld [str "feat"; str "core"; str "add x"; []; []] 0)))
  /\ exists w' tr',
       fst (runWithHistory {| All := true; Debug := true |} oneChanged
              (quietWorld [str "feat"; str "core"; str "add x"; []; []] 0))
       = Returned None w' tr'
       /\ map target (files w') = [str "/repo/myscopes.yaml"]
       /\ tr' !! str "/repo/myscopes.yaml"
          = Some {| Staging := Untracked; Worktree := Untracked |}
       /\ tr' !! str "main.go" = oneChanged !! str "main.go".
Proof.
  split.
  - apply (debug_run_stages_and_commits_nothing
           smallEmojize asciiEqualFold (list Piece) flatParse flatExecute keyOrder
           mergeSlice toyYamlRule toyJsonRule toyYamlScopes toyJsonScopes oneScopeFs
           firstOption slashJoin findAtRoot exeFallback
           (inl overrideRepo) (str "worktree not available in a bare repository")
           (inl (str "/repo/sub")) Status statusOf stageFile untracked pathOrder
           addingError (inl (str "/tmp/123")) None commitSucceeds
           {| All := true; Debug := true |} oneChanged (quietWorld [str "feat"; str "core"; str "add x"; []; []] 0)
           (fst (runWithHistory {| All := true; Debug := true |} oneChanged
                   (quietWorld [str "feat"; str "core"; str "add x"; []; []] 0)))
           (snd (runWithHistory {| All := true; Debug := true |} oneChanged
                   (quietWorld [str "feat"; str "core"; str "add x"; []; []] 0))));
      [reflexivity | apply surjective_pairing].
  - eexists _, _. split; [vm_compute; reflexivity|].
    split; [reflexivity|]. split; vm_compute; reflexivity.
Defined.

Lemma all_stages_the_changed_files_witness :
  Add (str "main.go")
    ∈ snd (runInRepo {| All := true; Debug := false |} oneChanged (quietWorld [str "feat"; []; str "add x"; []; []] 0))
  <-> exists s, oneChanged !! str "main.go" = Some s
                /\ Worktree s <> Unmodified /\ Worktree s <> Untracked.
Proof.
  apply (all_stages_the_changed_files
           smallEmojize asciiEqualFold (list Piece) flatParse flatExecute keyOrder
           mergeSlice toyYamlRule toyJsonRule toyYamlScopes toyJsonScopes oneScopeFs
           firstOption slashJoin (fun _ => None) exeFallback
           (inl plainRepo) (str "worktree not available in a bare repository")
           (inl (str "/repo/sub")) Status statusOf stageFile untracked pathOrder
           addingError (inl (str "/tmp/123")) None commitSucceeds (fun st => Permutation_refl (map_to_list st))
           {| All := true; Debug := false |} oneChanged (quietWorld [str "feat"; []; str "add x"; []; []] 0)
           plainRepo (str "/repo") (str "/repo/sub") oneChanged
           (fst (runInRepo {| All := true; Debug := false |} oneChanged
                   (quietWorld [str "feat"; []; str "add x"; []; []] 0)))
           (snd (runInRepo {| All := true; Debug := false |} oneChanged
                   (quietWorld [str "feat"; []; str "add x"; []; []] 0))));
    first [apply surjective_pairing | reflexivity].
Defined.

Lemma nothing_staged_returns_without_prompting_witness :
  (forall f s, oneChanged !! f = Some s ->
     Staging s = Unmodified \/ Staging s = Untracked)
  <-> runInRepo {| All := false; Debug := false |} oneChanged
        (quietWorld [str "feat"] 0)
      = (Returned None (quietWorld [str "feat"] 0) oneChanged, [StderrNoChanges]).
Proof.
  apply (nothing_staged_returns_without_prompting
           smallEmojize asciiEqualFold (list Piece) flatParse flatExecute keyOrder
           mergeSlice toyYamlRule toyJsonRule toyYamlScopes toyJsonScopes oneScopeFs
           firstOption slashJoin (fun _ => None) exeFallback
           (inl plainRepo) (str "worktree not available in a bare repository")
           (inl (str "/repo/sub")) Status statusOf stageFile untracked pathOrder
           addingError (inl (str "/tmp/123")) None commitSucceeds (fun st => Permutation_refl (map_to_list st))
           {| All := false; Debug := false |} oneChanged (quietWorld [str "feat"] 0)
           plainRepo (str "/repo") (str "/repo/sub") oneChanged);
    reflexivity.
Defined.
End RunLaws.
